(** * PetPsych AI request pipeline (src/app.py): a shallow embedding

    The development follows the layout of [src/app.py]:

    - [PyStr]     Python [str] values as lists of Unicode code points, with
                  the [str] methods the program calls ([strip], [lower],
                  [title], [upper], [startswith], [in], [split], [rsplit]);
    - [Exc]       Python exceptions as an error result;
    - [App]       [allowed_file], [validate_input_data],
                  [create_enhanced_prompt], [analyze_video_content] and the
                  [/analyze_behavior] handler, the latter in a state and
                  exception monad over the upload directory and the trace of
                  calls to the generation service;
    - [Spec]      the wording of the specification and closed forms of the
                  handler's steps, as definitions;
    - [Examples]  concrete worlds and requests;
    - [Validator], [PromptBuilder], [VideoSummarizer], [GenerationClient],
      [Handler]   the properties of each component;
    - [Cases]     the examples, evaluated;
    - [Hooks], [Sweep]   the response hook [add_security_headers] and the
                  sweep [cleanup_old_files], with [Statements] and
                  [MoreExamples] beside them;
    - [AllowedFile], [PromptContents], [SummarizerRange], [HandlerEffects],
      [HooksFacts], [SweepFacts], [MoreCases]   further properties of the
                  program.

    Logging calls are left out: they have no effect on results. *)

From Stdlib Require Import ZArith NArith List String Ascii Bool Lia.
From Stdlib Require Import DecimalString QArith Lqa.
From stdpp Require Import base gmap strings list.

Local Open Scope Z_scope.

(* ===================================================================== *)
(** ** Python strings *)
(* ===================================================================== *)

Module PyStr.

(** A Python [str] is a sequence of code points; [len] counts code points. *)
Definition char := N.
Definition pystr := list char.

Definition len {A} (s : list A) : Z := Z.of_nat (length s).

(** Source literals are written as Rocq strings (UTF-8 bytes) and decoded to
    code points, so that a literal of the embedding reads like the literal of
    the source. *)
Fixpoint utf8_decode (bs : list N) : pystr :=
  match bs with
  | [] => []
  | b :: r =>
      if (b <? 128)%N then b :: utf8_decode r
      else if (b <? 224)%N then
        match r with
        | b1 :: r1 => ((b - 192) * 64 + (b1 - 128))%N :: utf8_decode r1
        | _ => []
        end
      else if (b <? 240)%N then
        match r with
        | b1 :: b2 :: r2 =>
            ((b - 224) * 4096 + (b1 - 128) * 64 + (b2 - 128))%N :: utf8_decode r2
        | _ => []
        end
      else
        match r with
        | b1 :: b2 :: b3 :: r3 =>
            ((b - 240) * 262144 + (b1 - 128) * 4096 + (b2 - 128) * 64 + (b3 - 128))%N
              :: utf8_decode r3
        | _ => []
        end
  end.

Definition str (s : string) : pystr :=
  utf8_decode (map N_of_ascii (list_ascii_of_string s)).

(** [str(n)] for a non-negative integer: decimal digits. *)
Definition dec (n : N) : pystr :=
  str (NilZero.string_of_uint (N.to_uint n)).

(** Truthiness of a string: non-empty. *)
Definition truthy {A} (s : list A) : bool :=
  match s with [] => false | _ => true end.

Definition pystr_eqb (a b : pystr) : bool := bool_decide (a = b).

(** [x in l] for a list of strings. *)
Definition in_list (x : pystr) (l : list pystr) : bool := existsb (pystr_eqb x) l.

(** *** Whitespace and [strip]

    [str.strip()] removes the characters for which [str.isspace()] holds:
    the Unicode White_Space characters plus U+001C..U+001F. *)
Definition isspace (c : char) : bool :=
  ((9 <=? c) && (c <=? 13) || (28 <=? c) && (c <=? 32)
   || (c =? 133) || (c =? 160) || (c =? 5760)
   || (8192 <=? c) && (c <=? 8202)
   || (c =? 8232) || (c =? 8233) || (c =? 8239) || (c =? 8287) || (c =? 12288))%N.

Fixpoint lstrip (s : pystr) : pystr :=
  match s with
  | [] => []
  | c :: r => if isspace c then lstrip r else s
  end.

Definition rstrip (s : pystr) : pystr := rev (lstrip (rev s)).

Definition strip (s : pystr) : pystr := rstrip (lstrip s).

(** *** Case mappings

    On ASCII the mappings are written out.  Outside ASCII they are those of
    the Unicode character database, which is no part of the program: they are
    taken as the tables [Unicode].  The lower-case mapping is given the
    characters around the one it maps, as CPython's is (its rule for a final
    capital sigma reads them). *)
Class Unicode := {
  lower_ext : pystr -> char -> pystr -> pystr;
  upper_ext : char -> pystr;
  title_ext : char -> pystr;
  cased_ext : char -> bool
}.

(** The tables that leave every character outside ASCII as it is. *)
Definition ascii_only : Unicode :=
  {| lower_ext := fun _ c _ => [c];
     upper_ext := fun c => [c];
     title_ext := fun c => [c];
     cased_ext := fun _ => false |}.

Definition is_ascii_upper (c : char) : bool := ((65 <=? c) && (c <=? 90))%N.
Definition is_ascii_lower (c : char) : bool := ((97 <=? c) && (c <=? 122))%N.

Section CaseMappings.
Context {U : Unicode}.

(** [before] holds the characters that precede [c], nearest first. *)
Definition lower_char (before : pystr) (c : char) (after : pystr) : pystr :=
  if (c <? 128)%N then [if is_ascii_upper c then (c + 32)%N else c]
  else lower_ext before c after.

Definition upper_char (c : char) : pystr :=
  if (c <? 128)%N then [if is_ascii_lower c then (c - 32)%N else c]
  else upper_ext c.

Definition title_char (c : char) : pystr :=
  if (c <? 128)%N then [if is_ascii_lower c then (c - 32)%N else c]
  else title_ext c.

Definition is_cased (c : char) : bool :=
  if (c <? 128)%N then is_ascii_upper c || is_ascii_lower c
  else cased_ext c.

Fixpoint lower_from (before : pystr) (s : pystr) : pystr :=
  match s with
  | [] => []
  | c :: r => lower_char before c r ++ lower_from (c :: before) r
  end.

(** [s.lower()] *)
Definition lower (s : pystr) : pystr := lower_from [] s.

(** [s.upper()] *)
Definition upper (s : pystr) : pystr := flat_map upper_char s.

Fixpoint title_from (previous_is_cased : bool) (before : pystr) (s : pystr)
  : pystr :=
  match s with
  | [] => []
  | c :: r =>
      (if previous_is_cased then lower_char before c r else title_char c)
        ++ title_from (is_cased c) (c :: before) r
  end.

(** [s.title()] *)
Definition title (s : pystr) : pystr := title_from false [] s.
End CaseMappings.

(** *** Searching and splitting *)

Fixpoint startswith (s prefix : pystr) {struct prefix} : bool :=
  match prefix, s with
  | [], _ => true
  | p :: prefix', c :: s' => (p =? c)%N && startswith s' prefix'
  | _ :: _, [] => false
  end.

(** [needle in hay] *)
Fixpoint contains (needle hay : pystr) : bool :=
  startswith hay needle
  || match hay with
     | [] => false
     | _ :: hay' => contains needle hay'
     end.

(** [s.split(sep, 1)] for a one-character separator: the parts around the
    first occurrence of [sep], or [s] alone. *)
Fixpoint split_1 (sep : char) (s : pystr) : list pystr :=
  match s with
  | [] => [[]]
  | c :: r =>
      if (c =? sep)%N then [[]; r]
      else match split_1 sep r with
           | a :: rest => (c :: a) :: rest
           | [] => [[c]]
           end
  end.

(** [s.rsplit(sep, 1)]: the parts around the last occurrence of [sep]. *)
Definition rsplit_1 (sep : char) (s : pystr) : list pystr :=
  match split_1 sep (rev s) with
  | [a] => [rev a]
  | [a; b] => [rev b; rev a]
  | _ => [s]
  end.

End PyStr.

(* ===================================================================== *)
(** ** Exceptions *)
(* ===================================================================== *)

Module Exc.
Import PyStr.

(** The exception classes the program tells apart: [except OSError] catches
    the first only, [except Exception] all of them. *)
Inductive exn_class :=
  OSError | KeyError | IndexError | ValueError | OtherException.

(** An exception: its class and [str(e)]. *)
Record exn := Exn { exn_cls : exn_class; exn_msg : pystr }.

Inductive res (A : Type) :=
| Ok (a : A)
| Raise (e : exn).
Arguments Ok {A} a.
Arguments Raise {A} e.

Definition is_OSError (e : exn) : bool :=
  match exn_cls e with OSError => true | _ => false end.

(** Sequencing: an exception leaves the rest of the block unexecuted. *)
#[export] Instance res_ret : MRet res := fun A a => Ok a.
#[export] Instance res_bind : MBind res := fun A B k r =>
  match r with
  | Ok a => k a
  | Raise e => Raise e
  end.

End Exc.

(* ===================================================================== *)
(** ** The application *)
(* ===================================================================== *)

Module App.
Import PyStr Exc.

(** A Python dict with [str] keys and [str] values ([pet_data],
    [request.form]).  Keys are program literals. *)
Abbreviation pydict := (gmap string pystr).

(** [d[k]]: raises [KeyError] when the key is absent. *)
Definition getitem (d : pydict) (k : string) : res pystr :=
  match d !! k with
  | Some v => Ok v
  | None => Raise (Exn KeyError (str "'" ++ str k ++ str "'"))
  end.

(** [d.get(k, default)] *)
Definition get_default (d : pydict) (k : string) (dflt : pystr) : pystr :=
  default dflt (d !! k).

(** *** [validate_input_data] *)

Definition required_fields : list string := ["pet_name"; "pet_type"; "pet_breed"]%string.

Definition valid_pet_types : list pystr :=
  [str "dog"; str "cat"; str "bird"; str "rabbit"; str "hamster";
   str "guinea pig"; str "ferret"; str "other"].

Section Validation.
Context {U : Unicode}.

(** The condition of the loop over [required_fields]:
    [not data.get(field) or not data[field].strip()].  [data.get(field)]
    is [None] for an absent key, which is falsy; the subscript is evaluated
    only when the first disjunct is false. *)
Definition field_missing (data : pydict) (field : string) : res bool :=
  match data !! field with
  | None => Ok true
  | Some v =>
      if negb (truthy v) then Ok true
      else w ← getitem data field; Ok (negb (truthy (strip w)))
  end.

(** The loop, leaving at the first field found missing. *)
Fixpoint check_required (data : pydict) (fields : list string)
  : res (option pystr) :=
  match fields with
  | [] => Ok None
  | field :: rest =>
      m ← field_missing data field;
      if (m : bool) then Ok (Some (str "Missing required field: " ++ str field))
      else check_required data rest
  end.

Definition validate_input_data (data : pydict) : res (bool * option pystr) :=
  missing ← check_required data required_fields;
  match missing with
  | Some msg => Ok (false, Some msg)
  | None =>
      pet_type ← getitem data "pet_type";
      if negb (in_list (lower pet_type) valid_pet_types)
      then Ok (false, Some (str "Invalid pet type"))
      else
        pet_name ← getitem data "pet_name";
        if len pet_name >? 50
        then Ok (false, Some (str "Pet name too long (max 50 characters)"))
        else if len (get_default data "behavior_desc" []) >? 2000
        then Ok (false, Some (str "Behavior description too long (max 2000 characters)"))
        else Ok (true, None)
  end.
End Validation.

(** *** [allowed_file] *)

Definition ALLOWED_EXTENSIONS : gset pystr :=
  {[ str "mp4"; str "avi"; str "mov"; str "webm"; str "mkv" ]}.

Definition UPLOAD_FOLDER : pystr := str "static/uploads".

(** [l[i]]: raises [IndexError] out of range. *)
Definition getindex {A} (l : list A) (i : nat) : res A :=
  match l !! i with
  | Some v => Ok v
  | None => Raise (Exn IndexError (str "list index out of range"))
  end.

Section AllowedFile.
Context {U : Unicode}.

Definition allowed_file (filename : pystr) : res bool :=
  if contains (str ".") filename then
    ext ← getindex (rsplit_1 46%N filename) 1;
    Ok (bool_decide (lower ext ∈ ALLOWED_EXTENSIONS))
  else Ok false.
End AllowedFile.

(** *** [create_enhanced_prompt] *)

(** One row of [pet_type_insights]: a dict with the three keys
    ['behaviors'], ['emotions'] and ['health_indicators']. *)
Record species_vocab := {
  behaviors : pystr;
  emotions : pystr;
  health_indicators : pystr
}.

Definition pet_type_insights : gmap pystr species_vocab :=
  <[ str "dog" :=
       {| behaviors := str "tail wagging patterns, ear positioning, play bows, panting, barking types";
          emotions := str "excitement, anxiety, fear, dominance, submission, contentment";
          health_indicators := str "gait analysis, breathing patterns, appetite changes, energy levels" |} ]>
  (<[ str "cat" :=
       {| behaviors := str "purring intensity, tail movements, ear positioning, kneading, vocalizations";
          emotions := str "contentment, stress, territorial behavior, affection seeking, hunting instincts";
          health_indicators := str "grooming habits, litter box behavior, appetite, hiding patterns" |} ]>
  (<[ str "bird" :=
       {| behaviors := str "wing positioning, head movements, vocalizations, preening, perching habits";
          emotions := str "excitement, stress, bonding behaviors, territorial displays";
          health_indicators := str "feather condition, breathing patterns, eating habits, activity levels" |} ]>
  (<[ str "rabbit" :=
       {| behaviors := str "binky movements, thumping, grooming, digging, chinning";
          emotions := str "happiness, fear, territorial behavior, social bonding";
          health_indicators := str "eating patterns, litter habits, mobility, alertness" |} ]>
   ∅))).

(** [datetime.now()], and the two formats the program prints it in.  Years
    have four digits. *)
Record datetime := {
  year : N; month : N; day : N; hour : N; minute : N; second : N
}.

Definition pad2 (n : N) : pystr :=
  if (n <? 10)%N then str "0" ++ dec n else dec n.

(** [strftime('%Y-%m-%d %H:%M')] *)
Definition strftime_minutes (d : datetime) : pystr :=
  dec (year d) ++ str "-" ++ pad2 (month d) ++ str "-" ++ pad2 (day d)
    ++ str " " ++ pad2 (hour d) ++ str ":" ++ pad2 (minute d).

(** [strftime("%Y-%m-%d %H:%M:%S")] *)
Definition strftime_seconds (d : datetime) : pystr :=
  strftime_minutes d ++ str ":" ++ pad2 (second d).

(** The first line of the template, and the text around the name in its
    last line. *)
Definition prompt_opening : pystr :=
  str "You are PetPsych AI, an advanced animal behavior analyst with expertise in veterinary psychology, ethology, and animal cognition. Analyze the following pet's behavioral patterns with scientific rigor and compassionate understanding.".
Definition prompt_closing_head : pystr :=
  str "Please provide a thorough, compassionate analysis that helps ".
Definition prompt_closing_tail : pystr :=
  str "'s human understand their behavioral patterns and strengthens their bond through better communication.".

(** The lines of the template below the vocabulary: the four-part analysis
    framework, up to the line before the closing request. *)
Definition analysis_framework : list pystr :=
    [str "";
     str "1. 👀 What I Saw (Behavior)";
     str "";
     str "Short list of the key behaviors (e.g., pacing near door, whining, no tail wagging).";
     str "";
     str "Simple context (when, where).";
     str "";
     str "2. 🧠 What It Could Mean (Possible Reasons)";
     str "";
     str "Emotional state (happy, anxious, restless, curious).";
     str "";
     str "Everyday needs (bathroom, food, play, comfort).";
     str "";
     str "Possible health-related concerns (if relevant).";
     str "";
     str "3. 💡 What You Should Try (Next Steps)";
     str "";
     str "2–4 clear, actionable suggestions.";
     str "";
     str "Split into: “Do Now” ✅ and “Optional/Extra” 🌟.";
     str "";
     str "4. ⚠️ Watch Out For (Red Flags)";
     str "";
     str "Quick bullet list of signs that mean: “Time to see a vet/behaviorist.”";
     str ""].

(** ["\n".join(lines)] *)
Fixpoint join_lines (lines : list pystr) : pystr :=
  match lines with
  | [] => []
  | [l] => l
  | l :: rest => l ++ 10%N :: join_lines rest
  end.

Section Prompt.
Context {U : Unicode}.

(** [pet_type_insights.get(pet_data['pet_type'].lower(),
    pet_type_insights['dog'])] *)
Definition species_info_for (pet_type : pystr) : res species_vocab :=
  match pet_type_insights !! str "dog" with
  | None => Raise (Exn KeyError (str "'dog'"))
  | Some dflt => Ok (default dflt (pet_type_insights !! lower pet_type))
  end.

(** The lines of the f-string, between the newline that opens it and the
    newline that closes it; [now] is the value of [datetime.now()]. *)
Definition prompt_lines (now : datetime) (pet_data : pydict)
    (pet_type : pystr) (species_info : species_vocab)
    (pet_name pet_breed video_analysis : pystr) : list pystr :=
  [ prompt_opening;
    str "";
    str "🐾 SUBJECT PROFILE:";
    str "• Name: " ++ pet_name;
    str "• Species: " ++ title pet_type;
    str "• Breed: " ++ pet_breed;
    str "• Analysis Date: " ++ strftime_minutes now;
    str "";
    str "📋 BEHAVIORAL OBSERVATIONS:";
    str "Primary Behavior: " ++ get_default pet_data "behavior_desc" (str "Not specified");
    str "Vocal Cues: " ++ get_default pet_data "vocal_cues" (str "Not specified");
    str "What user wants to know: " ++ get_default pet_data "query" (str "Not specified");
    str "";
    (if truthy video_analysis then str "🎥 VIDEO ANALYSIS: " ++ video_analysis else str "");
    str "";
    str "🧠 ANALYSIS FRAMEWORK:";
    str "For " ++ pet_type ++ str " behavioral analysis, focus on:";
    str "• Key Behaviors: " ++ behaviors species_info;
    str "• Emotional States: " ++ emotions species_info;
    str "• Health Indicators: " ++ health_indicators species_info ]
  ++ analysis_framework ++
  [ prompt_closing_head ++ pet_name ++ prompt_closing_tail ].

Definition create_enhanced_prompt (now : datetime) (pet_data : pydict)
    (video_analysis : pystr) : res pystr :=
  pet_type ← getitem pet_data "pet_type";
  species_info ← species_info_for pet_type;
  pet_name ← getitem pet_data "pet_name";
  pet_breed ← getitem pet_data "pet_breed";
  let prompt :=
    join_lines ([str ""]
                  ++ prompt_lines now pet_data pet_type species_info
                       pet_name pet_breed video_analysis
                  ++ [str ""]) in
  Ok (strip prompt).
End Prompt.

(** *** [analyze_video_content] *)

(** The values [analyze_video_content] can be given. *)
Inductive pyvalue :=
| PyNone
| PyStr (s : pystr)
| PyBytes (b : list N).

Definition value_truthy (v : pyvalue) : bool :=
  match v with
  | PyNone => false
  | PyStr s => truthy s
  | PyBytes b => truthy b
  end.

Definition high_quality_sentence : pystr :=
  str "High-quality video footage analyzed showing detailed behavioral patterns and environmental context.".
Definition clear_indicators_sentence : pystr :=
  str "Video footage analyzed showing clear behavioral indicators and movement patterns.".
Definition brief_clip_sentence : pystr :=
  str "Brief video clip analyzed providing supplementary visual context.".
Definition technical_limitations_sentence : pystr :=
  str "Video provided for additional context (processing encountered technical limitations).".

(** The body of the [try] block. *)
Definition analyze_video_body (video_data : pyvalue) : res pystr :=
  let video_size := match video_data with PyStr s => len s | _ => 0 end in
  if video_size >? 1000000 then Ok high_quality_sentence
  else if video_size >? 100000 then Ok clear_indicators_sentence
  else Ok brief_clip_sentence.

Definition analyze_video_content (video_data : pyvalue) : pystr :=
  if negb (value_truthy video_data) then str ""
  else match analyze_video_body video_data with
       | Ok sentence => sentence
       | Raise _ => technical_limitations_sentence
       end.

(** *** The world of the handler *)

(** What [video_file.save] does: it writes the whole upload, fails before
    the destination is created, or fails after [written] bytes of it have
    been written (a full disk). *)
Inductive save_outcome :=
| SaveCompletes
| SaveFailsUnopened
| SaveFailsAfter (written : nat).

(** One call of [model.generate_content(prompt)] followed by the read of
    [response.text]: a text, or an exception from either. *)
Inductive gen_outcome :=
| GenText (text : pystr)
| GenRaise (e : exn).

(** The collaborators of one request: library functions the program calls
    and the behaviour of the clock, the disk and the generation service.
    [generate_content n prompt] is the outcome of the call made after [n]
    earlier calls. *)
Record Env := {
  secure_filename : pystr → pystr;
  b64decode : pystr → res (list N);
  upload_time : N;
  prompt_now : datetime;
  response_now : datetime;
  response_time : N;
  save_behaviour : save_outcome;
  getsize_fails : bool;
  remove_fails : bool;
  generate_content : nat → pystr → gen_outcome
}.

(** An uploaded file ([werkzeug.FileStorage]). *)
Record FileStorage := { filename : pystr; stream : list N }.

Record Request := {
  form : pydict;
  files : gmap string FileStorage
}.

(** A request as it reaches the handler.  The form and the files are parsed
    at the first read of [request.form], inside the handler's [try]: the
    read gives the parsed request, or it raises (on a body over
    [MAX_CONTENT_LENGTH], [RequestEntityTooLarge]).  A parsed request stands
    for the incoming request whose read gives it. *)
Inductive Incoming :=
| Read (req : Request)
| Unreadable (e : exn).

Coercion Read : Request >-> Incoming.

(** The state a request acts on: the files on disk (path to contents), the
    prompts sent to the generation service so far, and the seconds slept. *)
Record State := {
  disk : gmap pystr (list N);
  calls : list pystr;
  slept : nat
}.

Definition set_disk (d : gmap pystr (list N)) (st : State) : State :=
  {| disk := d; calls := calls st; slept := slept st |}.
Definition add_call (prompt : pystr) (st : State) : State :=
  {| disk := disk st; calls := calls st ++ [prompt]; slept := slept st |}.
Definition add_sleep (seconds : nat) (st : State) : State :=
  {| disk := disk st; calls := calls st; slept := slept st + seconds |}.

(** Statements that may raise and act on the state. *)
Definition M (A : Type) : Type := State → res A * State.

#[export] Instance M_ret : MRet M := fun A a st => (Ok a, st).
#[export] Instance M_bind : MBind M := fun A B k m st =>
  match m st with
  | (Ok a, st') => k a st'
  | (Raise e, st') => (Raise e, st')
  end.

Definition lift {A} (r : res A) : M A := fun st => (r, st).
Definition raise {A} (e : exn) : M A := fun st => (Raise e, st).

(** [try: body  except Exception as e: handler e] *)
Definition try_except {A} (body : M A) (handler : exn → M A) : M A :=
  fun st =>
    match body st with
    | (Ok a, st') => (Ok a, st')
    | (Raise e, st') => handler e st'
    end.

(** [try: body  except OSError: pass] *)
Definition try_except_OSError_pass (body : M unit) : M unit :=
  fun st =>
    match body st with
    | (Ok u, st') => (Ok u, st')
    | (Raise e, st') => if is_OSError e then (Ok (), st') else (Raise e, st')
    end.

(** [os.path.join(a, b)] on POSIX. *)
Definition os_path_join (a b : pystr) : pystr :=
  if startswith b (str "/") then b
  else if negb (truthy a) || startswith (rev a) (str "/") then a ++ b
  else a ++ str "/" ++ b.

Inductive json :=
| JBool (b : bool)
| JStr (s : pystr).

(** A response: the status code and the keys of the JSON body in the
    order of the source.  The key [processing_time], a float read off the
    clock, is left out. *)
Record Response := { status : Z; body : list (string * json) }.

Section World.
Context {U : Unicode} (E : Env).

Definition FileStorage_save (f : FileStorage) (path : pystr) : M unit :=
  fun st =>
    match save_behaviour E with
    | SaveCompletes => (Ok (), set_disk (<[path := stream f]> (disk st)) st)
    | SaveFailsUnopened =>
        (Raise (Exn OSError (str "[Errno 13] Permission denied")), st)
    | SaveFailsAfter written =>
        (Raise (Exn OSError (str "[Errno 28] No space left on device")),
         set_disk (<[path := take written (stream f)]> (disk st)) st)
    end.

Definition os_path_getsize (path : pystr) : M N :=
  fun st =>
    if getsize_fails E
    then (Raise (Exn OSError (str "[Errno 13] Permission denied")), st)
    else match disk st !! path with
         | Some contents => (Ok (N.of_nat (length contents)), st)
         | None => (Raise (Exn OSError (str "[Errno 2] No such file or directory")), st)
         end.

Definition os_remove (path : pystr) : M unit :=
  fun st =>
    if remove_fails E
    then (Raise (Exn OSError (str "[Errno 13] Permission denied")), st)
    else match disk st !! path with
         | Some _ => (Ok (), set_disk (delete path (disk st)) st)
         | None => (Raise (Exn OSError (str "[Errno 2] No such file or directory")), st)
         end.

Definition time_sleep (seconds : nat) : M unit :=
  fun st => (Ok (), add_sleep seconds st).

(** [model.generate_content(prompt)] and the read of [response.text]. *)
Definition model_generate_content (prompt : pystr) : M pystr :=
  fun st =>
    match generate_content E (length (calls st)) prompt with
    | GenText text => (Ok text, add_call prompt st)
    | GenRaise e => (Raise e, add_call prompt st)
    end.

(** *** The video step of [analyze_behavior] *)

Definition upload_path (video_file : FileStorage) : pystr :=
  let filename := secure_filename E (filename video_file) in
  let timestamp := upload_time E in
  let safe_filename := str "video_" ++ dec timestamp ++ str "_" ++ filename in
  os_path_join UPLOAD_FOLDER safe_filename.

Definition duration_estimate (file_size : N) : pystr :=
  if (file_size <? 5000000)%N then str "short"
  else if (file_size <? 20000000)%N then str "medium"
  else str "long".

Definition uploaded_sentence (file_size : N) : pystr :=
  (str "Uploaded video file analyzed (" ++ duration_estimate file_size
     ++ str " duration, " ++ dec (file_size / 1024) ++ str "KB). ")
    ++ str "Visual behavioral patterns and environmental context extracted from footage.".

Definition upload_fallback : pystr :=
  str "Video upload encountered processing issues but analysis continues with provided descriptions.".

Definition captured_fallback : pystr :=
  str "Live captured video provided additional behavioral context.".

(** The [try] block of the uploaded file. *)
Definition process_upload (video_file : FileStorage) : M pystr :=
  let video_path := upload_path video_file in
  _ ← FileStorage_save video_file video_path;
  file_size ← os_path_getsize video_path;
  let video_analysis := uploaded_sentence file_size in
  _ ← try_except_OSError_pass (os_remove video_path);
  mret video_analysis.

(** [video_file and video_file.filename and allowed_file(video_file.filename)];
    a [FileStorage] is truthy when its filename is. *)
Definition upload_accepted (video_file : option FileStorage) : res bool :=
  match video_file with
  | None => Ok false
  | Some f =>
      if truthy (filename f) then allowed_file (filename f) else Ok false
  end.

(** [captured_video and captured_video.startswith('data:video')] *)
Definition captured_present (captured_video : pystr) : bool :=
  truthy captured_video && startswith captured_video (str "data:video").

(** The [try] block of the captured video. *)
Definition process_captured (captured_video : pystr) : M pystr :=
  video_data ← lift (match split_1 44%N captured_video with
                     | [header; video_data] => Ok video_data
                     | _ => Raise (Exn ValueError
                              (str "not enough values to unpack (expected 2, got 1)"))
                     end);
  video_bytes ← lift (b64decode E video_data);
  let video_size := len video_bytes in
  mret (analyze_video_content (PyStr video_data)).

Definition process_video (req : Request) : M pystr :=
  let video_analysis := str "" in
  let video_file := files req !! "video_file" in
  accepted ← lift (upload_accepted video_file);
  video_analysis ←
    match video_file with
    | Some f =>
        if (accepted : bool)
        then try_except (process_upload f) (fun e => mret upload_fallback)
        else mret video_analysis
    | None => mret video_analysis
    end;
  let captured_video := get_default (form req) "captured_video" (str "") in
  if captured_present captured_video
  then try_except (process_captured captured_video)
                  (fun e => mret captured_fallback)
  else mret video_analysis.

(** *** The retry loop around the generation service *)

Definition unavailable : exn :=
  Exn OtherException (str "AI service temporarily unavailable. Please try again.").

(** One iteration: [Some text] when the loop is left by [break], [None]
    when it goes on to the next attempt. *)
Definition attempt_once (max_retries attempt : nat) (prompt : pystr)
  : M (option pystr) :=
  try_except
    (text ← model_generate_content prompt;
     if truthy text then mret (Some text)
     else raise (Exn OtherException (str "Empty response from AI model")))
    (fun e =>
       if (attempt =? max_retries - 1)%nat then raise unavailable
       else _ ← time_sleep 1; mret None).

(** [for attempt in attempts: ...]; a loop that ends without [break]
    leaves [response] unbound for the statement after it. *)
Fixpoint retry_loop (max_retries : nat) (attempts : list nat) (prompt : pystr)
  : M pystr :=
  match attempts with
  | [] => raise (Exn OtherException
            (str "cannot access local variable 'response' where it is not associated with a value"))
  | attempt :: rest =>
      left ← attempt_once max_retries attempt prompt;
      match left with
      | Some text => mret text
      | None => retry_loop max_retries rest prompt
      end
  end.

Definition max_retries : nat := 3.

Definition generate_with_retry (prompt : pystr) : M pystr :=
  retry_loop max_retries (seq 0 max_retries) prompt.

(** *** [analyze_behavior] *)

Definition form_field (req : Request) (name : string) : pystr :=
  strip (get_default (form req) name (str "")).

Definition pet_data_of (req : Request) : pydict :=
  <["pet_name" := form_field req "pet_name"]>
  (<["pet_type" := form_field req "pet_type"]>
  (<["pet_breed" := form_field req "pet_breed"]>
  (<["behavior_desc" := form_field req "behavior_desc"]>
  (<["vocal_cues" := form_field req "vocal_cues"]>
  (<["context" := form_field req "context"]> ∅))))).

(** The first read of [request.form]. *)
Definition read_form (incoming : Incoming) : M Request :=
  match incoming with
  | Read req => mret req
  | Unreadable e => raise e
  end.

(** The [try] block of the handler. *)
Definition analyze_behavior_body (incoming : Incoming) : M Response :=
  req ← read_form incoming;
  let pet_data := pet_data_of req in
  validity ← lift (validate_input_data pet_data);
  let '(is_valid, error_message) := (validity : bool * option pystr) in
  if negb is_valid then
    mret {| status := 400;
            body := [("success", JBool false);
                     ("error", JStr (str "Invalid input: "
                                       ++ default (str "None") error_message))] |}
  else
    video_analysis ← process_video req;
    prompt ← lift (create_enhanced_prompt (prompt_now E) pet_data video_analysis);
    text ← generate_with_retry prompt;
    pet_name ← lift (getitem pet_data "pet_name");
    pet_type ← lift (getitem pet_data "pet_type");
    mret {| status := 200;
            body := [("success", JBool true);
                     ("analysis", JStr text);
                     ("timestamp", JStr (strftime_seconds (response_now E)));
                     ("pet_name", JStr pet_name);
                     ("pet_type", JStr pet_type);
                     ("analysis_id",
                      JStr (str "PA_" ++ dec (response_time E) ++ str "_"
                              ++ upper (take 3 pet_name)))] |}.

Definition capacity_message : pystr :=
  str "Service temporarily at capacity. Please try again in a few minutes.".
Definition network_message : pystr :=
  str "Network connectivity issue. Please check your connection and try again.".
Definition invalid_message : pystr :=
  str "Invalid input provided. Please check your entries and try again.".
Definition generic_message : pystr :=
  str "Analysis service temporarily unavailable. Please try again.".

(** The choice of the message in the handler's [except Exception as e]. *)
Definition user_message (error_msg : pystr) : pystr :=
  if contains (str "quota") (lower error_msg) || contains (str "limit") (lower error_msg)
  then capacity_message
  else if contains (str "network") (lower error_msg)
          || contains (str "connection") (lower error_msg)
  then network_message
  else if contains (str "invalid") (lower error_msg)
  then invalid_message
  else generic_message.

Definition error_response (e : exn) : Response :=
  let error_msg := exn_msg e in
  {| status := 500;
     body := [("success", JBool false);
              ("error", JStr (user_message error_msg));
              ("timestamp", JStr (strftime_seconds (response_now E)));
              ("error_code", JStr (str "ANALYSIS_ERROR"))] |}.

Definition analyze_behavior (incoming : Incoming) (st : State)
  : Response * State :=
  match analyze_behavior_body incoming st with
  | (Ok response, st') => (response, st')
  | (Raise e, st') => (error_response e, st')
  end.
End World.

End App.

(* ===================================================================== *)
(** ** The specification's words *)
(* ===================================================================== *)

(** Definitions that follow the wording of the specification, and closed
    forms of what the steps of the handler come to, to be compared with the
    program's. *)
Module Spec.
Import PyStr Exc App.

(** A field is empty or whitespace-only; an absent field counts as empty. *)
Definition blank (data : pydict) (field : string) : bool :=
  forallb isspace (get_default data field []).

(** An attempt against the generation service gave a non-empty text. *)
Definition non_empty_result (o : gen_outcome) : bool :=
  match o with
  | GenText (_ :: _) => true
  | _ => false
  end.

Section Validation.
Context {U : Unicode}.

(** Two strings are equal up to case. *)
Definition caseless_eqb (a b : pystr) : bool := pystr_eqb (lower a) (lower b).

(** The species is one of the enumerated set, compared case-insensitively. *)
Definition species_listed (pet_type : pystr) : bool :=
  existsb (caseless_eqb pet_type) valid_pet_types.

(** The checks of the validator in their order, with the message of each;
    [None] when no check fails. *)
Definition first_failing_check (data : pydict) : option pystr :=
  if blank data "pet_name" then Some (str "Missing required field: pet_name")
  else if blank data "pet_type" then Some (str "Missing required field: pet_type")
  else if blank data "pet_breed" then Some (str "Missing required field: pet_breed")
  else if negb (species_listed (get_default data "pet_type" []))
  then Some (str "Invalid pet type")
  else if 50 <? len (get_default data "pet_name" [])
  then Some (str "Pet name too long (max 50 characters)")
  else if 2000 <? len (get_default data "behavior_desc" [])
  then Some (str "Behavior description too long (max 2000 characters)")
  else None.

(** The conditions under which the validator is to fail. *)
Definition violates (data : pydict) : Prop :=
  blank data "pet_name" = true ∨ blank data "pet_type" = true
  ∨ blank data "pet_breed" = true
  ∨ species_listed (get_default data "pet_type" []) = false
  ∨ 50 < len (get_default data "pet_name" [])
  ∨ 2000 < len (get_default data "behavior_desc" []).
End Validation.

(** The value of a key of a JSON body. *)
Definition body_field (r : Response) (key : string) : option json :=
  snd <$> find (fun kv => bool_decide (fst kv = key)) (body r).

Section Video.
Context {U : Unicode} (E : Env).

(** What the captured-video block leaves in [video_analysis]. *)
Definition captured_summary (captured_video : pystr) : pystr :=
  match split_1 44%N captured_video with
  | [header; video_data] =>
      match b64decode E video_data with
      | Ok _ => analyze_video_content (PyStr video_data)
      | Raise _ => captured_fallback
      end
  | _ => captured_fallback
  end.

(** What the uploaded-file block leaves in [video_analysis]. *)
Definition upload_summary (f : FileStorage) : pystr :=
  match save_behaviour E with
  | SaveCompletes =>
      if getsize_fails E then upload_fallback
      else uploaded_sentence (N.of_nat (length (stream f)))
  | _ => upload_fallback
  end.

(** What the uploaded-file block leaves on disk. *)
Definition disk_after_upload (f : FileStorage) (d : gmap pystr (list N))
  : gmap pystr (list N) :=
  let path := upload_path E f in
  match save_behaviour E with
  | SaveCompletes =>
      if getsize_fails E || remove_fails E then <[path := stream f]> d
      else delete path d
  | SaveFailsUnopened => d
  | SaveFailsAfter written => <[path := take written (stream f)]> d
  end.

(** The summary the video step hands to the Prompt Builder. *)
Definition video_summary (req : Request) (accepted : bool) : pystr :=
  let captured_video := get_default (form req) "captured_video" [] in
  if captured_present captured_video then captured_summary captured_video
  else match files req !! "video_file" with
       | Some f => if accepted then upload_summary f else []
       | None => []
       end.

(** The response to a request whose generation gave [text]. *)
Definition success_response (req : Request) (text : pystr) : Response :=
  {| status := 200;
     body := [("success", JBool true);
              ("analysis", JStr text);
              ("timestamp", JStr (strftime_seconds (response_now E)));
              ("pet_name", JStr (form_field req "pet_name"));
              ("pet_type", JStr (form_field req "pet_type"));
              ("analysis_id",
               JStr (str "PA_" ++ dec (response_time E) ++ str "_"
                       ++ upper (take 3 (form_field req "pet_name"))))] |}.

(** The state the video step leaves. *)
Definition state_after_video (req : Request) (accepted : bool) (st : State)
  : State :=
  match files req !! "video_file" with
  | Some f => if accepted then set_disk (disk_after_upload f (disk st)) st else st
  | None => st
  end.
End Video.

End Spec.

(* ===================================================================== *)
(** ** Worlds and requests of the examples *)
(* ===================================================================== *)

Module Examples.
Import PyStr Exc App.

Definition noon : datetime :=
  {| year := 2025; month := 3; day := 9; hour := 12; minute := 0; second := 0 |}.

(** [base64.b64decode] on the payloads of the examples: "AAAA" is three
    zero bytes, the empty payload is no bytes, and "A" alone is rejected
    (one data character cannot be decoded). *)
Definition b64decode_examples (data : pystr) : res (list N) :=
  if pystr_eqb data (str "AAAA") then Ok [0; 0; 0]%N
  else if pystr_eqb data (str "") then Ok []
  else Raise (Exn ValueError (str "Invalid base64-encoded string")).

(** A world: what saving, sizing and removing do, and what the generation
    service answers.  [secure_filename] leaves the file names of the
    examples as they are. *)
Definition world (save : save_outcome) (getsize_fault remove_fault : bool)
    (service : nat → pystr → gen_outcome) : Env :=
  {| secure_filename := fun name => name;
     b64decode := b64decode_examples;
     upload_time := 1741521600%N;
     prompt_now := noon;
     response_now := noon;
     response_time := 1741521601%N;
     save_behaviour := save;
     getsize_fails := getsize_fault;
     remove_fails := remove_fault;
     generate_content := service |}.

(** A service whose first [k] answers are empty and the next is [text]. *)
Definition answers_after (k : nat) (text : pystr) : nat → pystr → gen_outcome :=
  fun n _ => if (n <? k)%nat then GenText (str "") else GenText text.

(** A service that raises the same error on every call. *)
Definition always_raises (msg : pystr) : nat → pystr → gen_outcome :=
  fun _ _ => GenRaise (Exn OtherException msg).

Definition fresh : State := {| disk := ∅; calls := []; slept := 0 |}.

(** Nothing fails and the service answers at once. *)
Definition calm : Env :=
  world SaveCompletes false false (answers_after 0 (str "Rex seems happy.")).

(** The size of the saved upload cannot be read. *)
Definition unreadable_size : Env :=
  world SaveCompletes true false (answers_after 0 (str "Rex seems happy.")).

(** The saved upload cannot be removed. *)
Definition locked_file : Env :=
  world SaveCompletes false true (answers_after 0 (str "Rex seems happy.")).

(** The disk fills up while the upload is saved. *)
Definition full_disk : Env :=
  world (SaveFailsAfter 2) false false (answers_after 0 (str "Rex seems happy.")).

(** The service is over its quota. *)
Definition over_quota : Env :=
  world SaveCompletes false false
    (always_raises (str "429 Quota exceeded for quota metric 'Generate Content API requests per minute'")).

Definition rex_form : pydict :=
  <["pet_name" := str "Rex"]>
  (<["pet_type" := str "dog"]>
  (<["pet_breed" := str "Lab"]>
  (<["behavior_desc" := str "Barks at the door"]>
  (<["vocal_cues" := str "whining"]>
  (<["context" := str "Why does he bark at night?"]> ∅))))).

Definition clip : FileStorage :=
  {| filename := str "clip.mp4"; stream := [1; 2; 3]%N |}.

(** No video. *)
Definition req_plain : Request := {| form := rex_form; files := ∅ |}.

(** An uploaded file only. *)
Definition req_upload : Request :=
  {| form := rex_form; files := <["video_file" := clip]> ∅ |}.

(** An uploaded file and a captured video. *)
Definition req_both : Request :=
  {| form := <["captured_video" := str "data:video/webm;base64,AAAA"]> rex_form;
     files := <["video_file" := clip]> ∅ |}.

(** An uploaded file and a captured video whose payload cannot be decoded. *)
Definition req_undecodable : Request :=
  {| form := <["captured_video" := str "data:video/webm;base64,A"]> rex_form;
     files := <["video_file" := clip]> ∅ |}.

End Examples.

(* ===================================================================== *)
(** ** The response hook and the sweep of the upload folder *)
(* ===================================================================== *)

Module Hooks.
Import PyStr Exc App.

(** The headers of a response ([werkzeug.datastructures.Headers]): the list
    of the header lines, names compared without regard to case. *)
Abbreviation Headers := (list (pystr * pystr)).

(** A response on its way out: what the view returned, and its headers. *)
Record FlaskResponse := { payload : Response; headers : Headers }.

Section Headers.
Context {U : Unicode}.

Definition same_name (a b : pystr) : bool := pystr_eqb (lower a) (lower b).

(** [headers.get(key)]: the value of the first line of that name. *)
Definition headers_get (h : Headers) (key : pystr) : option pystr :=
  snd <$> find (fun line => same_name (fst line) key) h.

(** [headers[key] = value] ([Headers.set]): the first line of that name is
    replaced where it stands and the later ones are dropped; with no such
    line, one is added at the end. *)
Fixpoint headers_set (h : Headers) (key value : pystr) : Headers :=
  match h with
  | [] => [(key, value)]
  | line :: rest =>
      if same_name (fst line) key
      then (key, value) :: filter (fun l => same_name (fst l) key = false) rest
      else line :: headers_set rest key value
  end.

(** [add_security_headers(response)], for a request to [path]. *)
Definition add_security_headers (path : pystr) (response : FlaskResponse)
  : FlaskResponse :=
  let h := headers response in
  let h := headers_set h (str "X-Content-Type-Options") (str "nosniff") in
  let h := headers_set h (str "X-Frame-Options") (str "DENY") in
  let h := headers_set h (str "X-XSS-Protection") (str "1; mode=block") in
  let h := headers_set h (str "Referrer-Policy") (str "strict-origin-when-cross-origin") in
  let h :=
    if startswith path (str "/api/") then
      let h := headers_set h (str "Access-Control-Allow-Origin") (str "*") in
      let h := headers_set h (str "Access-Control-Allow-Methods") (str "GET, POST, OPTIONS") in
      headers_set h (str "Access-Control-Allow-Headers") (str "Content-Type")
    else h in
  {| payload := payload response; headers := h |}.

(** The names [add_security_headers] sets on every response, and the ones
    it sets on the responses of the API. *)
Definition security_names : list pystr :=
  [str "X-Content-Type-Options"; str "X-Frame-Options"; str "X-XSS-Protection";
   str "Referrer-Policy"].

Definition cors_names : list pystr :=
  [str "Access-Control-Allow-Origin"; str "Access-Control-Allow-Methods";
   str "Access-Control-Allow-Headers"].

(** The number of lines of a name. *)
Definition lines_named (h : Headers) (key : pystr) : nat :=
  length (filter (fun l => same_name (fst l) key = true) h).
End Headers.

End Hooks.

Module Sweep.
Import PyStr Exc App.

(** What is at a path: a regular file or not (a directory, say), and the
    time of its last status change.  Clock readings are the rationals the
    floats stand for: the difference of two readings of this era is exact in
    floating point, and so is its comparison with 3600. *)
Record node := { is_regular : bool; ctime : Q }.

(** The file tree, by path. *)
Abbreviation tree := (gmap pystr node).

(** The surroundings of one sweep: whether the upload folder exists, what
    [os.listdir] gives (the names in the folder, in the order the system
    lists them, or an error), the reading of the clock, and the paths whose
    removal the system refuses. *)
Record SweepEnv := {
  upload_dir_exists : bool;
  listdir : res (list pystr);
  current_time : Q;
  removal_refused : pystr → bool
}.

Section Sweep.
Context (E : SweepEnv).

(** [os.path.isfile(path)] *)
Definition os_path_isfile (t : tree) (path : pystr) : bool :=
  match t !! path with
  | Some n => is_regular n
  | None => false
  end.

(** [os.path.getctime(path)] *)
Definition os_path_getctime (t : tree) (path : pystr) : res Q :=
  match t !! path with
  | Some n => Ok (ctime n)
  | None => Raise (Exn OSError (str "[Errno 2] No such file or directory"))
  end.

(** [os.remove(path)] *)
Definition sweep_remove (t : tree) (path : pystr) : res tree :=
  if removal_refused E path
  then Raise (Exn OSError (str "[Errno 13] Permission denied"))
  else match t !! path with
       | Some _ => Ok (delete path t)
       | None => Raise (Exn OSError (str "[Errno 2] No such file or directory"))
       end.

(** [file_age > 3600] *)
Definition older_than_an_hour (file_age : Q) : bool :=
  negb (Qle_bool file_age 3600).

(** The loop over the names of the folder: the tree it leaves, and the
    exception that ended it, if one did. *)
Fixpoint sweep_loop (names : list pystr) (t : tree) : option exn * tree :=
  match names with
  | [] => (None, t)
  | filename :: rest =>
      let file_path := os_path_join UPLOAD_FOLDER filename in
      if os_path_isfile t file_path then
        match os_path_getctime t file_path with
        | Raise e => (Some e, t)
        | Ok c =>
            let file_age := (current_time E - c)%Q in
            if older_than_an_hour file_age then
              match sweep_remove t file_path with
              | Raise e => (Some e, t)
              | Ok t' => sweep_loop rest t'
              end
            else sweep_loop rest t
        end
      else sweep_loop rest t
  end.

(** [cleanup_old_files()]: every exception ends the sweep and is logged. *)
Definition cleanup_old_files (t : tree) : tree :=
  if upload_dir_exists E then
    match listdir E with
    | Raise e => t
    | Ok names => snd (sweep_loop names t)
    end
  else t.

(** A path the sweep is to remove: a listed regular file older than an
    hour. *)
Definition stale (names : list pystr) (t : tree) (path : pystr) : Prop :=
  (∃ filename, filename ∈ names ∧ path = os_path_join UPLOAD_FOLDER filename)
  ∧ ∃ n, t !! path = Some n ∧ is_regular n = true
         ∧ (3600 < current_time E - ctime n)%Q.
End Sweep.

End Sweep.

(* ===================================================================== *)
(** ** Further statements *)
(* ===================================================================== *)

(** Definitions the properties of the rest of the program are stated with. *)
Module Statements.
Import PyStr Exc App.

Section Statements.
Context {U : Unicode}.

(** The text after the last dot of a file name, in lower case, is one of
    the allowed extensions. *)
Definition has_allowed_extension (filename : pystr) : Prop :=
  ∃ base ext,
    filename = base ++ 46%N :: ext
    ∧ ¬ In 46%N ext
    ∧ lower ext ∈ ALLOWED_EXTENSIONS.
End Statements.

End Statements.

(* ===================================================================== *)
(** ** Further worlds and requests *)
(* ===================================================================== *)

Module MoreExamples.
Import PyStr Exc App Hooks Sweep Examples.

(** A record with the three required keys and no other. *)
Definition bare_record : pydict :=
  <["pet_name" := str "Rex"]>
  (<["pet_type" := str "dog"]>
  (<["pet_breed" := str "Lab"]> ∅)).

(** A request for a species outside the enumerated set, with an upload. *)
Definition req_lizard : Request :=
  {| form := <["pet_type" := str "lizard"]> rex_form;
     files := <["video_file" := clip]> ∅ |}.

(** A request whose body is over [MAX_CONTENT_LENGTH]: the read of the form
    raises werkzeug's [RequestEntityTooLarge], whose text is its code, name
    and description. *)
Definition too_large : exn :=
  Exn OtherException
    (str "413 Request Entity Too Large: The data value transmitted exceeds the capacity limit.").

Definition oversized_body : Incoming := Unreadable too_large.

(** An upload folder with a file of 70 minutes, a file of 5 minutes and a
    directory, and a sweep of it in which nothing is refused. *)
Definition old_upload : pystr := str "static/uploads/video_1741521000_old.mp4".
Definition new_upload : pystr := str "static/uploads/video_1741524900_new.mp4".
Definition kept_folder : pystr := str "static/uploads/keep".

Definition folder : tree :=
  <[old_upload := {| is_regular := true; ctime := 1741521000 |}]>
  (<[new_upload := {| is_regular := true; ctime := 1741524900 |}]>
  (<[kept_folder := {| is_regular := false; ctime := 1741000000 |}]> ∅)).

Definition folder_names : list pystr :=
  [str "video_1741521000_old.mp4"; str "video_1741524900_new.mp4"; str "keep"].

Definition quiet_sweep : SweepEnv :=
  {| upload_dir_exists := true;
     listdir := Ok folder_names;
     current_time := 1741525200;
     removal_refused := fun _ => false |}.

(** A response of the API that comes with a frame header of its own. *)
Definition framed_response : FlaskResponse :=
  {| payload := {| status := 200; body := [] |};
     headers := [(str "x-frame-options", str "SAMEORIGIN");
                 (str "Cache-Control", str "no-store")] |}.

End MoreExamples.

(* ===================================================================== *)
(** ** Strings: lemmas *)
(* ===================================================================== *)

Module PyStrFacts.
Import PyStr.

Lemma lstrip_nil_iff (s : pystr) : lstrip s = [] ↔ forallb isspace s = true.
Proof.
  induction s as [|c r IH]; simpl; [tauto|].
  destruct (isspace c); simpl; [exact IH|].
  split; discriminate.
Qed.

Lemma lstrip_head (s : pystr) c r : lstrip s = c :: r → isspace c = false.
Proof.
  induction s as [|d t IH]; simpl; [discriminate|].
  destruct (isspace d) eqn:Hd; [exact IH|].
  intros [= -> _]. exact Hd.
Qed.

Lemma forallb_rev {A} (f : A → bool) (l : list A) :
  forallb f (rev l) = forallb f l.
Proof.
  induction l as [|a l IH]; simpl; [reflexivity|].
  rewrite forallb_app, IH. simpl. rewrite andb_true_r. apply andb_comm.
Qed.

(** [strip] leaves nothing exactly of the strings made of whitespace. *)
Lemma strip_nil_iff (s : pystr) : strip s = [] ↔ forallb isspace s = true.
Proof.
  unfold strip, rstrip. split.
  - intros H. apply (f_equal (@rev _)) in H. rewrite rev_involutive in H.
    simpl in H. apply lstrip_nil_iff in H. rewrite forallb_rev in H.
    destruct (lstrip s) as [|c r] eqn:Hl.
    + now apply lstrip_nil_iff.
    + apply lstrip_head in Hl. simpl in H. rewrite Hl in H. discriminate.
  - intros H. apply lstrip_nil_iff in H. now rewrite H.
Qed.

Lemma truthy_strip (s : pystr) : truthy (strip s) = negb (forallb isspace s).
Proof.
  destruct (forallb isspace s) eqn:H.
  - apply strip_nil_iff in H. now rewrite H.
  - destruct (strip s) eqn:Hs; [|reflexivity].
    apply strip_nil_iff in Hs. congruence.
Qed.

Lemma pystr_eqb_eq (a b : pystr) : pystr_eqb a b = true ↔ a = b.
Proof. unfold pystr_eqb. apply bool_decide_eq_true. Qed.

End PyStrFacts.

(* ===================================================================== *)
(** ** Input Validator *)
(* ===================================================================== *)

Module Validator.
Import PyStr Exc App Spec PyStrFacts.

Lemma res_bind_Ok {A B} (a : A) (k : A → res B) : (Ok a ≫= k) = k a.
Proof. reflexivity. Qed.

Lemma Ok_inj {A} (a b : A) : Ok a = Ok b → a = b.
Proof. now intros [= ->]. Qed.

Lemma res_bind_Raise {A B} (e : exn) (k : A → res B) : (Raise e ≫= k) = Raise e.
Proof. reflexivity. Qed.

Section Facts.
Context {U : Unicode}.

(** The members of the enumerated set are in lower case already. *)
Lemma valid_pet_types_lower :
  Forall (fun v => lower v = v) valid_pet_types.
Proof. unfold valid_pet_types. repeat constructor. Qed.

Lemma species_listed_in_list (pet_type : pystr) :
  species_listed pet_type = in_list (lower pet_type) valid_pet_types.
Proof.
  unfold species_listed, in_list, caseless_eqb.
  induction valid_pet_types_lower as [|v l Hv _ IH]; simpl; [reflexivity|].
  now rewrite Hv, IH.
Qed.

Lemma field_missing_blank (data : pydict) (field : string) :
  field_missing data field = Ok (blank data field).
Proof.
  unfold field_missing, blank, get_default, getitem.
  destruct (data !! field) as [v|] eqn:Hv; simpl; [|reflexivity].
  destruct v as [|c r]; simpl; [reflexivity|].
  change (Ok (negb (truthy (strip (c :: r)))) = Ok (isspace c && forallb isspace r)).
  rewrite truthy_strip, negb_involutive. reflexivity.
Qed.

Lemma getitem_not_blank (data : pydict) (field : string) :
  blank data field = false → getitem data field = Ok (get_default data field []).
Proof.
  unfold blank, get_default, getitem.
  destruct (data !! field); simpl; [reflexivity|discriminate].
Qed.

(** The validator runs the checks in the order of [first_failing_check]
    and never raises. *)
Lemma validate_input_data_cascade (data : pydict) :
  validate_input_data data =
    Ok (match first_failing_check data with
        | Some msg => (false, Some msg)
        | None => (true, None)
        end).
Proof.
  unfold validate_input_data, first_failing_check, required_fields.
  cbn [check_required]. rewrite !field_missing_blank, !res_bind_Ok.
  destruct (blank data "pet_name") eqn:Hn; [reflexivity|].
  destruct (blank data "pet_type") eqn:Ht; [reflexivity|].
  destruct (blank data "pet_breed") eqn:Hb; [reflexivity|].
  rewrite res_bind_Ok, (getitem_not_blank _ _ Ht), res_bind_Ok.
  rewrite species_listed_in_list.
  destruct (in_list _ valid_pet_types); [|reflexivity].
  cbn [negb].
  rewrite (getitem_not_blank _ _ Hn), res_bind_Ok.
  rewrite !Z.gtb_ltb.
  destruct (50 <? _); [reflexivity|].
  destruct (2000 <? _); reflexivity.
Qed.

Lemma first_failing_check_violates (data : pydict) :
  violates data ↔ ∃ msg, first_failing_check data = Some msg.
Proof.
  unfold violates, first_failing_check.
  destruct (blank data "pet_name"); [split; eauto|].
  destruct (blank data "pet_type"); [split; eauto|].
  destruct (blank data "pet_breed"); [split; eauto|].
  destruct (species_listed _); cbn [negb]; [|split; eauto 6].
  destruct (Z.ltb_spec 50 (len (get_default data "pet_name" [])));
    [split; eauto 6|].
  destruct (Z.ltb_spec 2000 (len (get_default data "behavior_desc" [])));
    [split; eauto 7|].
  split; [|intros [msg [=]]].
  intros [[=]|[[=]|[[=]|[[=]|[?|?]]]]]; lia.
Qed.

(** C2. The validator fails exactly on the records that have a required
    field (pet_name, pet_type, pet_breed) absent, empty or made of
    whitespace, a pet_type outside the enumerated set compared without
    regard to case, a pet_name of more than 50 characters or a
    behavior_desc of more than 2000; on every other record it succeeds.
    It is a function of the record alone: it returns a result and acts on
    nothing. *)
Theorem validator_fails_exactly_on_violations (data : pydict) :
  (violates data ↔ ∃ msg, validate_input_data data = Ok (false, Some msg))
  ∧ (¬ violates data ↔ validate_input_data data = Ok (true, None)).
Proof.
  rewrite validate_input_data_cascade, first_failing_check_violates.
  destruct (first_failing_check data) as [msg|]; split; split.
  - eauto.
  - eauto.
  - intros H. destruct H. eauto.
  - discriminate.
  - intros [msg [=]].
  - intros [msg [=]].
  - reflexivity.
  - intros _ [msg [=]].
Qed.

(** C10. On a record that breaks several rules the validator reports the
    first failing check in the order: pet_name missing, pet_type missing,
    pet_breed missing, invalid pet type, pet_name too long, behavior_desc
    too long.  A record with an empty pet_name and an invalid pet_type gets
    the message of the missing pet_name. *)
Theorem validator_reports_first_failing_check (data : pydict) :
  validate_input_data data =
    Ok (match first_failing_check data with
        | Some msg => (false, Some msg)
        | None => (true, None)
        end)
  ∧ validate_input_data
      (<["pet_name" := str ""]> (<["pet_type" := str "lizard"]>
         (<["pet_breed" := str "Lab"]> ∅)))
    = Ok (false, Some (str "Missing required field: pet_name")).
Proof.
  split; [apply validate_input_data_cascade|].
  rewrite validate_input_data_cascade. reflexivity.
Qed.
End Facts.

End Validator.

(* ===================================================================== *)
(** ** Prompt Builder *)
(* ===================================================================== *)

Module PromptBuilder.
Import PyStr Exc App Spec PyStrFacts Validator.

Lemma startswith_app (x b : pystr) : startswith (x ++ b) x = true.
Proof.
  induction x as [|c x IH]; simpl; [reflexivity|].
  now rewrite N.eqb_refl, IH.
Qed.

Lemma startswith_app_l (h n b : pystr) :
  startswith h n = true → startswith (h ++ b) n = true.
Proof.
  revert h. induction n as [|c n IH]; intros [|d h]; simpl; try easy.
  intros [-> H]%andb_prop. now rewrite IH.
Qed.

Lemma contains_app_r (n a h : pystr) :
  contains n h = true → contains n (a ++ h) = true.
Proof.
  intros H. induction a as [|c a IH]; simpl; [exact H|].
  rewrite IH. apply orb_true_r.
Qed.

Lemma contains_app_l (n h b : pystr) :
  contains n h = true → contains n (h ++ b) = true.
Proof.
  induction h as [|c h IH]; cbn [contains app].
  - rewrite orb_false_r. destruct n; [|discriminate].
    intros _. destruct b; reflexivity.
  - intros [H|H]%orb_prop.
    + change (c :: h ++ b) with ((c :: h) ++ b).
      now rewrite (startswith_app_l _ _ _ H).
    + rewrite (IH H). apply orb_true_r.
Qed.

Lemma contains_self (n : pystr) : contains n n = true.
Proof.
  destruct n as [|c n]; [reflexivity|].
  cbn [contains]. rewrite <- (app_nil_r (c :: n)) at 1.
  now rewrite startswith_app.
Qed.

Lemma join_lines_cons (l : pystr) (lines : list pystr) :
  lines ≠ [] → join_lines (l :: lines) = l ++ 10%N :: join_lines lines.
Proof. destruct lines; [intros H; now destruct H|reflexivity]. Qed.

Lemma join_lines_snoc (lines : list pystr) (l : pystr) :
  lines ≠ [] → join_lines (lines ++ [l]) = join_lines lines ++ 10%N :: l.
Proof.
  induction lines as [|a lines IH]; intros Hne; [now destruct Hne|].
  destruct lines as [|b lines]; [reflexivity|].
  change ((a :: b :: lines) ++ [l]) with (a :: b :: (lines ++ [l])).
  rewrite join_lines_cons by done.
  change (b :: lines ++ [l]) with ((b :: lines) ++ [l]).
  rewrite IH by done.
  rewrite (join_lines_cons a (b :: lines)) by done.
  now rewrite <- app_assoc.
Qed.

(** Every line is found in the joined text. *)
Lemma contains_join_lines (l : pystr) (lines : list pystr) :
  l ∈ lines → contains l (join_lines lines) = true.
Proof.
  induction 1 as [l lines|l a lines Hin IH].
  - destruct lines as [|b lines]; [apply contains_self|].
    rewrite join_lines_cons by done.
    apply contains_app_l, contains_self.
  - destruct lines as [|b lines]; [inversion Hin|].
    rewrite join_lines_cons by done.
    apply contains_app_r. cbn [contains]. rewrite IH. apply orb_true_r.
Qed.

(** A text that begins and ends with other than whitespace, put between two
    newlines, is what [strip] gives back. *)
Lemma strip_framed (c d : char) (mid : pystr) :
  isspace c = false → isspace d = false →
  strip (10%N :: (c :: mid ++ [d]) ++ [10%N]) = c :: mid ++ [d].
Proof.
  intros Hc Hd. unfold strip, rstrip.
  assert (Hl : lstrip (10%N :: (c :: mid ++ [d]) ++ [10%N])
               = (c :: mid ++ [d]) ++ [10%N]).
  { change (lstrip (10%N :: (c :: mid ++ [d]) ++ [10%N]))
      with (lstrip (c :: (mid ++ [d]) ++ [10%N])).
    cbn [lstrip]. now rewrite Hc. }
  assert (Hr : rev (c :: mid ++ [d]) = d :: rev mid ++ [c]).
  { change (c :: mid ++ [d]) with ((c :: mid) ++ [d]).
    now rewrite rev_app_distr. }
  rewrite Hl, rev_app_distr, Hr.
  change (lstrip (rev [10%N] ++ d :: rev mid ++ [c]))
    with (lstrip (d :: rev mid ++ [c])).
  cbn [lstrip]. rewrite Hd.
  change (d :: rev mid ++ [c]) with ((d :: rev mid) ++ [c]).
  rewrite rev_app_distr. cbn [rev app]. now rewrite rev_involutive.
Qed.

(** Lines that begin and end with other than whitespace, joined and put
    between two empty lines, are what [strip] gives back. *)
Lemma join_lines_framed (lines : list pystr) (first last : pystr)
    (middle : list pystr) c t t' d :
  isspace c = false → isspace d = false →
  first = c :: t → last = t' ++ [d] →
  lines = (first :: middle) ++ [last] →
  strip (join_lines ([[]] ++ lines ++ [[]])) = join_lines lines.
Proof.
  intros Hc Hd -> -> Hlines.
  assert (Hne : lines ≠ []) by (rewrite Hlines; discriminate).
  assert (Hshape : ∃ mid, join_lines lines = c :: mid ++ [d]).
  { rewrite Hlines, join_lines_snoc by discriminate.
    destruct middle as [|m middle].
    - exists (t ++ 10%N :: t'). cbn [join_lines app].
      now rewrite <- app_assoc.
    - rewrite join_lines_cons by discriminate.
      exists (t ++ 10%N :: join_lines (m :: middle) ++ 10%N :: t').
      cbn [app]. rewrite <- !app_assoc. cbn [app].
      now rewrite <- !app_assoc. }
  destruct Hshape as [mid Hmid].
  change ([[]] ++ lines ++ [[]]) with ([] :: (lines ++ [[]])).
  rewrite join_lines_cons by (destruct lines; [now destruct Hne|discriminate]).
  rewrite join_lines_snoc by exact Hne.
  rewrite Hmid. now apply (strip_framed c d mid).
Qed.

Lemma prompt_opening_head : ∃ t, prompt_opening = 89%N :: t.
Proof. eexists. vm_compute. reflexivity. Qed.

Lemma prompt_closing_tail_last : ∃ t, prompt_closing_tail = t ++ [46%N].
Proof. exists (removelast prompt_closing_tail). vm_compute. reflexivity. Qed.

Lemma dog_row :
  ∃ dog, pet_type_insights !! str "dog" = Some dog
         ∧ behaviors dog = str "tail wagging patterns, ear positioning, play bows, panting, barking types"
         ∧ emotions dog = str "excitement, anxiety, fear, dominance, submission, contentment"
         ∧ health_indicators dog = str "gait analysis, breathing patterns, appetite changes, energy levels".
Proof.
  eexists. split; [unfold pet_type_insights; apply lookup_insert_eq|].
  repeat split.
Qed.

Section Facts.
Context {U : Unicode}.

(** The text between the two newlines is the prompt. *)
Lemma prompt_trimmed now data pet_type info pet_name pet_breed va :
  strip (join_lines ([str ""]
           ++ prompt_lines now data pet_type info pet_name pet_breed va
           ++ [str ""]))
  = join_lines (prompt_lines now data pet_type info pet_name pet_breed va).
Proof.
  destruct prompt_opening_head as [t Ht].
  destruct prompt_closing_tail_last as [t' Ht'].
  eapply (join_lines_framed _ prompt_opening
            (prompt_closing_head ++ pet_name ++ prompt_closing_tail)
            _ 89%N t (prompt_closing_head ++ pet_name ++ t') 46%N);
    [reflexivity|reflexivity|exact Ht| |].
  - rewrite Ht', <- !app_assoc. reflexivity.
  - unfold prompt_lines. rewrite app_assoc. reflexivity.
Qed.

Lemma species_info_for_total (pet_type : pystr) :
  ∃ info, species_info_for pet_type = Ok info.
Proof.
  unfold species_info_for. destruct dog_row as (dog & -> & _). eauto.
Qed.

(** On a record that has the three required keys the builder returns the
    joined lines. *)
Lemma create_enhanced_prompt_lines now (data : pydict) va pet_type pet_name
    pet_breed info :
  data !! "pet_type" = Some pet_type →
  data !! "pet_name" = Some pet_name →
  data !! "pet_breed" = Some pet_breed →
  species_info_for pet_type = Ok info →
  create_enhanced_prompt now data va
  = Ok (join_lines (prompt_lines now data pet_type info pet_name pet_breed va)).
Proof.
  intros Ht Hn Hb Hi. unfold create_enhanced_prompt, getitem.
  rewrite Ht, res_bind_Ok, Hi, res_bind_Ok, Hn, res_bind_Ok, Hb, res_bind_Ok.
  cbv zeta. now rewrite prompt_trimmed.
Qed.

(** What a record that passed validation holds. *)
Lemma validated_fields (data : pydict) :
  validate_input_data data = Ok (true, None) →
  ∃ pet_name pet_type pet_breed,
    data !! "pet_name" = Some pet_name
    ∧ data !! "pet_type" = Some pet_type
    ∧ data !! "pet_breed" = Some pet_breed
    ∧ in_list (lower pet_type) valid_pet_types = true.
Proof.
  rewrite validate_input_data_cascade. unfold first_failing_check.
  destruct (blank data "pet_name") eqn:Hn; [discriminate|].
  destruct (blank data "pet_type") eqn:Ht; [discriminate|].
  destruct (blank data "pet_breed") eqn:Hb; [discriminate|].
  destruct (species_listed _) eqn:Hs; [|discriminate]. intros _.
  rewrite species_listed_in_list in Hs.
  unfold blank, get_default in *.
  destruct (data !! "pet_name") as [n|]; [|discriminate].
  destruct (data !! "pet_type") as [t|]; [|discriminate].
  destruct (data !! "pet_breed") as [b|]; [|discriminate].
  eauto 8.
Qed.

(** The prompt holds each of its lines. *)
Lemma prompt_contains_line now (data : pydict) va pet_type pet_name
    pet_breed info prompt (i : nat) (line : pystr) :
  data !! "pet_type" = Some pet_type →
  data !! "pet_name" = Some pet_name →
  data !! "pet_breed" = Some pet_breed →
  species_info_for pet_type = Ok info →
  create_enhanced_prompt now data va = Ok prompt →
  prompt_lines now data pet_type info pet_name pet_breed va !! i = Some line →
  contains line prompt = true.
Proof.
  intros Ht Hn Hb Hi Hp Hl.
  rewrite (create_enhanced_prompt_lines _ _ _ _ _ _ _ Ht Hn Hb Hi) in Hp.
  apply Ok_inj in Hp. subst prompt.
  apply contains_join_lines. eapply list_elem_of_lookup_2, Hl.
Qed.

Lemma in_list_elem_of (x : pystr) (l : list pystr) :
  in_list x l = true → x ∈ l.
Proof.
  unfold in_list. intros (v & Hv & Heq)%existsb_exists.
  apply pystr_eqb_eq in Heq as ->. now apply list_elem_of_In.
Qed.

(** C8. For a validated record whose species has no row in the vocabulary
    table (the species is then one of hamster, guinea pig, ferret, other,
    in any case), the Prompt Builder looks up the row of "dog" and writes
    its behaviors, emotions and health indicators into the prompt; the
    lookup reads the species in lower case, so two spellings that differ
    in case only get the same row. *)
Theorem species_without_row_gets_dog_vocabulary now (data : pydict) va
    (pet_type : pystr) :
  validate_input_data data = Ok (true, None) →
  data !! "pet_type" = Some pet_type →
  pet_type_insights !! lower pet_type = None →
  ∃ dog prompt,
    pet_type_insights !! str "dog" = Some dog
    ∧ lower pet_type ∈ [str "hamster"; str "guinea pig"; str "ferret"; str "other"]
    ∧ species_info_for pet_type = Ok dog
    ∧ create_enhanced_prompt now data va = Ok prompt
    ∧ contains (str "• Key Behaviors: " ++ behaviors dog) prompt = true
    ∧ contains (str "• Emotional States: " ++ emotions dog) prompt = true
    ∧ contains (str "• Health Indicators: " ++ health_indicators dog) prompt = true
    ∧ (∀ a b, lower a = lower b → species_info_for a = species_info_for b).
Proof.
  intros Hv Ht Hrow.
  destruct (validated_fields _ Hv) as (n & t & b & Hn & Ht' & Hb & Hin).
  rewrite Ht in Ht'. injection Ht' as <-.
  destruct dog_row as (dog & Hdog & _).
  assert (Hi : species_info_for pet_type = Ok dog).
  { unfold species_info_for. now rewrite Hdog, Hrow. }
  pose proof (create_enhanced_prompt_lines now data va _ _ _ _ Ht Hn Hb Hi) as Hp.
  exists dog, (join_lines (prompt_lines now data pet_type dog n b va)).
  split; [exact Hdog|]. split.
  { apply in_list_elem_of in Hin. unfold valid_pet_types in Hin.
    repeat match type of Hin with
           | _ ∈ _ :: _ => apply elem_of_cons in Hin as [Heq|Hin]
           end;
      try (rewrite Heq in Hrow; vm_compute in Hrow; discriminate Hrow).
    - rewrite Heq. apply list_elem_of_here.
    - rewrite Heq. do 1 apply list_elem_of_further. apply list_elem_of_here.
    - rewrite Heq. do 2 apply list_elem_of_further. apply list_elem_of_here.
    - rewrite Heq. do 3 apply list_elem_of_further. apply list_elem_of_here.
    - inversion Hin. }
  split; [exact Hi|]. split; [exact Hp|].
  repeat split.
  - now apply (prompt_contains_line now data va _ _ _ _ _ 17%nat _ Ht Hn Hb Hi Hp).
  - now apply (prompt_contains_line now data va _ _ _ _ _ 18%nat _ Ht Hn Hb Hi Hp).
  - now apply (prompt_contains_line now data va _ _ _ _ _ 19%nat _ Ht Hn Hb Hi Hp).
  - intros x y Hxy. unfold species_info_for. now rewrite Hxy.
Qed.
End Facts.

End PromptBuilder.

(* ===================================================================== *)
(** ** Video Summarizer *)
(* ===================================================================== *)

Module VideoSummarizer.
Import PyStr Exc App.

Lemma analyze_video_content_falsy (v : pyvalue) :
  value_truthy v = false → analyze_video_content v = str "".
Proof. unfold analyze_video_content. now intros ->. Qed.

Lemma analyze_video_content_text (s : pystr) :
  s ≠ [] →
  analyze_video_content (PyStr s) =
    if 1000000 <? len s then high_quality_sentence
    else if 100000 <? len s then clear_indicators_sentence
    else brief_clip_sentence.
Proof.
  intros Hs. unfold analyze_video_content, analyze_video_body.
  destruct s as [|c s]; [now destruct Hs|]. cbn [value_truthy truthy negb].
  rewrite !Z.gtb_ltb.
  destruct (1000000 <? _); [reflexivity|].
  destruct (100000 <? _); reflexivity.
Qed.

Lemma analyze_video_content_bytes (b : list N) :
  b ≠ [] → analyze_video_content (PyBytes b) = brief_clip_sentence.
Proof. destruct b; [intros H; now destruct H|reflexivity]. Qed.

(** C3, as the program has it.  An empty input gives "".  The input the
    summarizer measures is a text (the handler passes the base64 text of the
    payload): for a non-empty text the sentence is chosen by its length in
    characters, over 1,000,000 the high-quality sentence, over 100,000 the
    clear-indicators sentence, else the brief-clip sentence; so at length
    1,500,000, 500,000 and 50,000.  A non-empty input that is no text, raw
    bytes for one, is sized 0 and gets the brief-clip sentence whatever its
    length. *)
Theorem summarizer_thresholds_on_text :
  analyze_video_content PyNone = str ""
  ∧ analyze_video_content (PyStr []) = str ""
  ∧ analyze_video_content (PyBytes []) = str ""
  ∧ (∀ s : pystr, s ≠ [] →
       (1000000 < len s → analyze_video_content (PyStr s) = high_quality_sentence)
       ∧ (100000 < len s ≤ 1000000 →
          analyze_video_content (PyStr s) = clear_indicators_sentence)
       ∧ (len s ≤ 100000 → analyze_video_content (PyStr s) = brief_clip_sentence)
       ∧ (len s = 1500000 → analyze_video_content (PyStr s) = high_quality_sentence)
       ∧ (len s = 500000 → analyze_video_content (PyStr s) = clear_indicators_sentence)
       ∧ (len s = 50000 → analyze_video_content (PyStr s) = brief_clip_sentence))
  ∧ (∀ b : list N, b ≠ [] → analyze_video_content (PyBytes b) = brief_clip_sentence).
Proof.
  split; [reflexivity|]. split; [reflexivity|]. split; [reflexivity|].
  split; [|exact analyze_video_content_bytes].
  intros s Hs. rewrite (analyze_video_content_text s Hs).
  destruct (Z.ltb_spec 1000000 (len s)) as [H1|H1];
    [|destruct (Z.ltb_spec 100000 (len s)) as [H2|H2]];
    (split; [|split; [|split; [|split; [|split]]]]);
    intros Hlen; first [exfalso; lia | reflexivity].
Qed.

Lemma summarizer_thresholds_on_text_witness :
  analyze_video_content (PyStr (str "AAAA")) = brief_clip_sentence.
Proof.
  destruct summarizer_thresholds_on_text as (_ & _ & _ & H & _).
  destruct (H (str "AAAA")) as (_ & _ & Hbrief & _); [discriminate|].
  apply Hbrief. vm_compute. discriminate.
Defined.

(** Raw bytes of length 1,500,000 get the brief-clip sentence, not the
    high-quality one. *)
Lemma summarizer_bytes_counterexample :
  len (repeat 0%N (N.to_nat 1500000)) = 1500000
  ∧ analyze_video_content (PyBytes (repeat 0%N (N.to_nat 1500000)))
    = brief_clip_sentence
  ∧ brief_clip_sentence ≠ high_quality_sentence.
Proof.
  split; [unfold len; rewrite repeat_length; lia|]. split.
  - apply analyze_video_content_bytes.
    intros H. apply (f_equal (@length N)) in H.
    rewrite repeat_length in H. cbn [length] in H. lia.
  - intros H. apply (f_equal (@length N)) in H. vm_compute in H. discriminate.
Qed.

End VideoSummarizer.

(* ===================================================================== *)
(** ** Generation Client *)
(* ===================================================================== *)

Module GenerationClient.
Import PyStr Exc App Spec.

Section Facts.
Context (E : Env).

(** One iteration of the loop, by the outcome of its call. *)
Lemma attempt_once_eq (attempt : nat) (prompt : pystr) (st : State) :
  attempt_once E max_retries attempt prompt st =
    match generate_content E (length (calls st)) prompt with
    | GenText (c :: text) => (Ok (Some (c :: text)), add_call prompt st)
    | _ =>
        if (attempt =? max_retries - 1)%nat
        then (Raise unavailable, add_call prompt st)
        else (Ok None, add_sleep 1 (add_call prompt st))
    end.
Proof.
  unfold attempt_once, try_except, model_generate_content, mbind, M_bind.
  destruct (generate_content E (length (calls st)) prompt) as [[|c text]|e];
    cbn [truthy]; unfold raise; destruct (attempt =? max_retries - 1)%nat;
    reflexivity.
Qed.

Lemma retry_loop_step (attempt : nat) (rest : list nat) (prompt : pystr)
    (st : State) :
  retry_loop E max_retries (attempt :: rest) prompt st =
    match attempt_once E max_retries attempt prompt st with
    | (Ok (Some text), st') => (Ok text, st')
    | (Ok None, st') => retry_loop E max_retries rest prompt st'
    | (Raise e, st') => (Raise e, st')
    end.
Proof.
  cbn [retry_loop]. unfold mbind, M_bind.
  destruct (attempt_once E max_retries attempt prompt st) as [[[text|]|e] st'];
    reflexivity.
Qed.

Lemma length_calls_next (prompt : pystr) (st : State) :
  length (calls (add_sleep 1 (add_call prompt st))) = S (length (calls st)).
Proof.
  unfold add_sleep, add_call. cbn [calls]. rewrite length_app.
  cbn [length]. lia.
Qed.

(** The loop of three attempts, by the outcomes of the three calls. *)
Lemma generate_with_retry_eq (prompt : pystr) (st : State) :
  let out k := generate_content E (length (calls st) + k) prompt in
  let st1 := add_call prompt st in
  let st2 := add_call prompt (add_sleep 1 st1) in
  let st3 := add_call prompt (add_sleep 1 st2) in
  generate_with_retry E prompt st =
    match out 0%nat with
    | GenText (c :: text) => (Ok (c :: text), st1)
    | _ =>
        match out 1%nat with
        | GenText (c :: text) => (Ok (c :: text), st2)
        | _ =>
            match out 2%nat with
            | GenText (c :: text) => (Ok (c :: text), st3)
            | _ => (Raise unavailable, st3)
            end
        end
    end.
Proof.
  cbv zeta. unfold generate_with_retry.
  change (seq 0 max_retries) with [0; 1; 2]%nat.
  rewrite retry_loop_step, attempt_once_eq.
  replace (length (calls st) + 0)%nat with (length (calls st)) by lia.
  replace (length (calls st) + 1)%nat with (S (length (calls st))) by lia.
  replace (length (calls st) + 2)%nat with (S (S (length (calls st)))) by lia.
  change (0 =? max_retries - 1)%nat with false.
  assert (Hsecond :
    retry_loop E max_retries [1; 2]%nat prompt (add_sleep 1 (add_call prompt st))
    = match generate_content E (S (length (calls st))) prompt with
      | GenText (c :: text) =>
          (Ok (c :: text), add_call prompt (add_sleep 1 (add_call prompt st)))
      | _ =>
          match generate_content E (S (S (length (calls st)))) prompt with
          | GenText (c :: text) =>
              (Ok (c :: text),
               add_call prompt (add_sleep 1
                 (add_call prompt (add_sleep 1 (add_call prompt st)))))
          | _ =>
              (Raise unavailable,
               add_call prompt (add_sleep 1
                 (add_call prompt (add_sleep 1 (add_call prompt st)))))
          end
      end).
  { rewrite retry_loop_step, attempt_once_eq, length_calls_next.
    change (1 =? max_retries - 1)%nat with false.
    assert (Hthird :
      retry_loop E max_retries [2%nat] prompt
        (add_sleep 1 (add_call prompt (add_sleep 1 (add_call prompt st))))
      = match generate_content E (S (S (length (calls st)))) prompt with
        | GenText (c :: text) =>
            (Ok (c :: text),
             add_call prompt (add_sleep 1
               (add_call prompt (add_sleep 1 (add_call prompt st)))))
        | _ =>
            (Raise unavailable,
             add_call prompt (add_sleep 1
               (add_call prompt (add_sleep 1 (add_call prompt st)))))
        end).
    { rewrite retry_loop_step, attempt_once_eq, !length_calls_next.
      change (2 =? max_retries - 1)%nat with true.
      destruct (generate_content E (S (S (length (calls st)))) prompt)
        as [[|c text]|e]; reflexivity. }
    destruct (generate_content E (S (length (calls st))) prompt)
      as [[|c text]|e]; first [reflexivity | exact Hthird]. }
  destruct (generate_content E (length (calls st)) prompt)
    as [[|c text]|e]; first [reflexivity | exact Hsecond].
Qed.

Lemma first_attempt_succeeds (prompt : pystr) (st : State) (text : pystr) :
  generate_content E (length (calls st) + 0) prompt = GenText text →
  text ≠ [] →
  generate_with_retry E prompt st = (Ok text, add_call prompt st).
Proof.
  intros H0 Hne. rewrite generate_with_retry_eq. cbv zeta. rewrite H0.
  destruct text; [now destruct Hne|reflexivity].
Qed.

Lemma second_attempt_succeeds (prompt : pystr) (st : State) (text : pystr) :
  non_empty_result (generate_content E (length (calls st) + 0) prompt) = false →
  generate_content E (length (calls st) + 1) prompt = GenText text →
  text ≠ [] →
  generate_with_retry E prompt st
  = (Ok text, add_call prompt (add_sleep 1 (add_call prompt st))).
Proof.
  intros H0 H1 Hne. rewrite generate_with_retry_eq. cbv zeta. rewrite H1.
  destruct text; [now destruct Hne|].
  destruct (generate_content E (length (calls st) + 0) prompt)
    as [[|c0 t0]|e0]; [reflexivity|discriminate H0|reflexivity].
Qed.

Lemma third_attempt_succeeds (prompt : pystr) (st : State) (text : pystr) :
  non_empty_result (generate_content E (length (calls st) + 0) prompt) = false →
  non_empty_result (generate_content E (length (calls st) + 1) prompt) = false →
  generate_content E (length (calls st) + 2) prompt = GenText text →
  text ≠ [] →
  generate_with_retry E prompt st
  = (Ok text,
     add_call prompt (add_sleep 1
       (add_call prompt (add_sleep 1 (add_call prompt st))))).
Proof.
  intros H0 H1 H2 Hne. rewrite generate_with_retry_eq. cbv zeta. rewrite H2.
  destruct text; [now destruct Hne|].
  destruct (generate_content E (length (calls st) + 0) prompt)
    as [[|c0 t0]|e0]; [|discriminate H0|];
    (destruct (generate_content E (length (calls st) + 1) prompt)
       as [[|c1 t1]|e1]; [reflexivity|discriminate H1|reflexivity]).
Qed.

Lemma three_attempts_fail (prompt : pystr) (st : State) :
  non_empty_result (generate_content E (length (calls st) + 0) prompt) = false →
  non_empty_result (generate_content E (length (calls st) + 1) prompt) = false →
  non_empty_result (generate_content E (length (calls st) + 2) prompt) = false →
  generate_with_retry E prompt st
  = (Raise unavailable,
     add_call prompt (add_sleep 1
       (add_call prompt (add_sleep 1 (add_call prompt st))))).
Proof.
  intros H0 H1 H2. rewrite generate_with_retry_eq. cbv zeta.
  destruct (generate_content E (length (calls st) + 0) prompt)
    as [[|c0 t0]|e0]; [|discriminate H0|];
    (destruct (generate_content E (length (calls st) + 1) prompt)
       as [[|c1 t1]|e1]; [|discriminate H1|]);
    (destruct (generate_content E (length (calls st) + 2) prompt)
       as [[|c2 t2]|e2]; [reflexivity|discriminate H2|reflexivity]).
Qed.

(** The ways the loop can end: a text after one, two or three calls, or
    [unavailable] after three. *)
Lemma generate_with_retry_cases (prompt : pystr) (st : State) :
  let st1 := add_call prompt st in
  let st2 := add_call prompt (add_sleep 1 st1) in
  let st3 := add_call prompt (add_sleep 1 st2) in
  (∃ text, generate_with_retry E prompt st = (Ok text, st1))
  ∨ (∃ text, generate_with_retry E prompt st = (Ok text, st2))
  ∨ (∃ text, generate_with_retry E prompt st = (Ok text, st3))
  ∨ generate_with_retry E prompt st = (Raise unavailable, st3).
Proof.
  cbv zeta. rewrite generate_with_retry_eq. cbv zeta.
  destruct (generate_content E (length (calls st) + 0) prompt)
    as [[|c0 t0]|e0]; eauto;
    (destruct (generate_content E (length (calls st) + 1) prompt)
       as [[|c1 t1]|e1]; eauto);
    (destruct (generate_content E (length (calls st) + 2) prompt)
       as [[|c2 t2]|e2]; eauto 6).
Qed.

Lemma calls_one (prompt : pystr) (st : State) :
  calls (add_call prompt st) = calls st ++ repeat prompt 1.
Proof. reflexivity. Qed.

Lemma calls_two (prompt : pystr) (st : State) :
  calls (add_call prompt (add_sleep 1 (add_call prompt st)))
  = calls st ++ repeat prompt 2.
Proof. cbn [calls add_call add_sleep repeat]. now rewrite <- app_assoc. Qed.

Lemma calls_three (prompt : pystr) (st : State) :
  calls (add_call prompt (add_sleep 1
           (add_call prompt (add_sleep 1 (add_call prompt st)))))
  = calls st ++ repeat prompt 3.
Proof. cbn [calls add_call add_sleep repeat]. now rewrite <- !app_assoc. Qed.

(** C1. The client calls the generation service at most 3 times for a
    prompt.  It returns the text of the first attempt whose result is
    non-empty and calls no more after it (a success at the 2nd attempt
    leaves 2 calls), sleeping one second between attempts; when all 3
    attempts give an empty result or raise, it raises the exception
    [unavailable] of the exhausted retries. *)
Theorem retry_three_attempts_first_success (prompt : pystr) (st : State) :
  let out k := generate_content E (length (calls st) + k) prompt in
  let result := generate_with_retry E prompt st in
  (∃ n, (n ≤ 3)%nat ∧ calls (snd result) = calls st ++ repeat prompt n)
  ∧ (∀ (k : nat) (text : pystr),
       (k < 3)%nat →
       (∀ j, (j < k)%nat → non_empty_result (out j) = false) →
       out k = GenText text → text ≠ [] →
       fst result = Ok text
       ∧ calls (snd result) = calls st ++ repeat prompt (S k)
       ∧ slept (snd result) = (slept st + k)%nat)
  ∧ ((∀ j, (j < 3)%nat → non_empty_result (out j) = false) →
     fst result = Raise unavailable
     ∧ calls (snd result) = calls st ++ repeat prompt 3
     ∧ slept (snd result) = (slept st + 2)%nat).
Proof.
  intros out result. subst result. split; [|split].
  - destruct (generate_with_retry_cases prompt st)
      as [[t ->] | [[t ->] | [[t ->] | ->]]]; cbn [snd].
    + exists 1%nat. split; [lia|apply calls_one].
    + exists 2%nat. split; [lia|apply calls_two].
    + exists 3%nat. split; [lia|apply calls_three].
    + exists 3%nat. split; [lia|apply calls_three].
  - intros k text Hk Hprev Hout Hne.
    destruct k as [|[|[|k]]]; [| | |lia].
    + rewrite (first_attempt_succeeds _ _ _ Hout Hne). cbn [fst snd].
      split; [reflexivity|]. split; [apply calls_one|].
      cbn [slept add_call]. lia.
    + rewrite (second_attempt_succeeds _ _ _ (Hprev 0%nat ltac:(lia)) Hout Hne).
      cbn [fst snd]. split; [reflexivity|]. split; [apply calls_two|].
      cbn [slept add_call add_sleep]. lia.
    + rewrite (third_attempt_succeeds _ _ _ (Hprev 0%nat ltac:(lia))
                 (Hprev 1%nat ltac:(lia)) Hout Hne).
      cbn [fst snd]. split; [reflexivity|]. split; [apply calls_three|].
      cbn [slept add_call add_sleep]. lia.
  - intros Hall.
    rewrite (three_attempts_fail _ _ (Hall 0%nat ltac:(lia))
               (Hall 1%nat ltac:(lia)) (Hall 2%nat ltac:(lia))).
    cbn [fst snd]. split; [reflexivity|]. split; [apply calls_three|].
    cbn [slept add_call add_sleep]. lia.
Qed.
End Facts.

End GenerationClient.

(* ===================================================================== *)
(** ** Request Handler *)
(* ===================================================================== *)

Module Handler.
Import PyStr Exc App Spec PyStrFacts Validator PromptBuilder GenerationClient.

(** *** Sequencing in the monad of the handler *)

Lemma M_bind_lift_Ok {A B} (a : A) (k : A → M B) (st : State) :
  (lift (Ok a) ≫= k) st = k a st.
Proof. reflexivity. Qed.

Lemma M_bind_read_form {B} (req : Request) (k : Request → M B) (st : State) :
  (read_form (Read req) ≫= k) st = k req st.
Proof. reflexivity. Qed.

Lemma M_bind_Ok {A B} (m : M A) (k : A → M B) (st st' : State) (a : A) :
  m st = (Ok a, st') → (m ≫= k) st = k a st'.
Proof. intros H. unfold mbind, M_bind. now rewrite H. Qed.

Lemma M_bind_Raise {A B} (m : M A) (k : A → M B) (st st' : State) (e : exn) :
  m st = (Raise e, st') → (m ≫= k) st = (Raise e, st').
Proof. intros H. unfold mbind, M_bind. now rewrite H. Qed.

(** *** [allowed_file] never raises *)

Lemma contains_char_In (c : char) (s : pystr) :
  contains [c] s = true → In c s.
Proof.
  induction s as [|d s IH]; cbn [contains startswith]; [discriminate|].
  rewrite andb_true_r. intros [H|H]%orb_prop.
  - left. symmetry. now apply N.eqb_eq.
  - right. auto.
Qed.

Lemma split_1_found (sep : char) (s : pystr) :
  In sep s → ∃ a b, split_1 sep s = [a; b].
Proof.
  induction s as [|c s IH]; [intros []|]. intros Hin. cbn [split_1].
  destruct (c =? sep)%N eqn:Hc; [eauto|].
  destruct Hin as [->|Hin]; [rewrite N.eqb_refl in Hc; discriminate|].
  destruct (IH Hin) as (a & b & ->). eauto.
Qed.

Lemma rsplit_1_found (sep : char) (s : pystr) :
  In sep s → ∃ a b, rsplit_1 sep s = [a; b].
Proof.
  intros Hin. unfold rsplit_1.
  destruct (split_1_found sep (rev s)) as (a & b & ->); [|eauto].
  now apply in_rev in Hin.
Qed.

Section Facts.
Context {U : Unicode} (E : Env).

Lemma allowed_file_total (name : pystr) : ∃ b, allowed_file name = Ok b.
Proof.
  unfold allowed_file. destruct (contains (str ".") name) eqn:Hdot; [|eauto].
  apply (contains_char_In 46%N) in Hdot.
  destruct (rsplit_1_found 46%N _ Hdot) as (a & b & ->).
  cbn [getindex lookup list_lookup]. rewrite res_bind_Ok. eauto.
Qed.

Lemma upload_accepted_total (video_file : option FileStorage) :
  ∃ b, upload_accepted video_file = Ok b.
Proof.
  destruct video_file as [f|]; cbn [upload_accepted]; [|eauto].
  destruct (truthy (filename f)); [apply allowed_file_total|eauto].
Qed.

(** *** The video step *)

(** The uploaded-file block under its [except Exception]. *)
Lemma process_upload_guarded (f : FileStorage) (st : State) :
  try_except (process_upload E f) (fun e => mret upload_fallback) st
  = (Ok (upload_summary E f), set_disk (disk_after_upload E f (disk st)) st).
Proof.
  unfold try_except, process_upload, upload_summary, disk_after_upload,
    mbind, M_bind, FileStorage_save, os_path_getsize, os_remove,
    try_except_OSError_pass, mret, M_ret.
  set (path := upload_path E f).
  destruct (save_behaviour E) as [| |written].
  - cbn [disk set_disk]. rewrite lookup_insert_eq.
    destruct (getsize_fails E); cbn [orb]; [reflexivity|].
    destruct (remove_fails E); cbn [is_OSError exn_cls]; [reflexivity|].
    cbn [disk set_disk]. rewrite lookup_insert_eq.
    cbn [disk set_disk]. now rewrite delete_insert_eq.
  - destruct st; reflexivity.
  - reflexivity.
Qed.

(** The captured-video block under its [except Exception]. *)
Lemma process_captured_guarded (captured_video : pystr) (st : State) :
  try_except (process_captured E captured_video)
             (fun e => mret captured_fallback) st
  = (Ok (captured_summary E captured_video), st).
Proof.
  unfold try_except, process_captured, captured_summary, mbind, M_bind, lift,
    mret, M_ret.
  destruct (split_1 44%N captured_video) as [|header [|video_data [|x l]]];
    try reflexivity.
  destruct (b64decode E video_data); reflexivity.
Qed.

(** The video step never raises: it returns a summary and leaves the
    calls and the sleeps as they were. *)
Lemma process_video_eq (req : Request) (st : State) (accepted : bool) :
  upload_accepted (files req !! "video_file") = Ok accepted →
  process_video E req st
  = (Ok (video_summary E req accepted), state_after_video E req accepted st).
Proof.
  intros Hacc. unfold process_video, video_summary, state_after_video.
  rewrite Hacc. cbv zeta. unfold lift at 1. unfold mbind at 1, M_bind at 1.
  unfold mbind at 1, M_bind at 1.
  change (str "") with (@nil char).
  destruct (files req !! "video_file") as [f|].
  - destruct accepted.
    + rewrite process_upload_guarded.
      destruct (captured_present _);
        [apply process_captured_guarded|reflexivity].
    + unfold mret at 1, M_ret at 1.
      destruct (captured_present _);
        [apply process_captured_guarded|reflexivity].
  - unfold mret at 1, M_ret at 1.
    destruct (captured_present _);
      [apply process_captured_guarded|reflexivity].
Qed.

(** *** The handler on a valid record *)

Lemma pet_data_of_name (req : Request) :
  pet_data_of req !! "pet_name" = Some (form_field req "pet_name").
Proof. unfold pet_data_of. apply lookup_insert_eq. Qed.

Lemma pet_data_of_type (req : Request) :
  pet_data_of req !! "pet_type" = Some (form_field req "pet_type").
Proof.
  unfold pet_data_of. rewrite lookup_insert_ne by done.
  apply lookup_insert_eq.
Qed.

Lemma pet_data_of_breed (req : Request) :
  pet_data_of req !! "pet_breed" = Some (form_field req "pet_breed").
Proof.
  unfold pet_data_of. rewrite !lookup_insert_ne by done.
  apply lookup_insert_eq.
Qed.

(** The handler never stores a key ['query']. *)
Lemma pet_data_of_query (req : Request) : pet_data_of req !! "query" = None.
Proof.
  unfold pet_data_of. rewrite !lookup_insert_ne by done.
  apply lookup_empty.
Qed.

(** On a valid record the handler runs the video step, builds the prompt
    from its summary and answers by the outcome of the generation. *)
Lemma analyze_behavior_valid (req : Request) (st : State) (accepted : bool) :
  validate_input_data (pet_data_of req) = Ok (true, None) →
  upload_accepted (files req !! "video_file") = Ok accepted →
  ∃ prompt,
    create_enhanced_prompt (prompt_now E) (pet_data_of req)
      (video_summary E req accepted) = Ok prompt
    ∧ analyze_behavior E req st =
        match generate_with_retry E prompt (state_after_video E req accepted st) with
        | (Ok text, st') => (success_response E req text, st')
        | (Raise e, st') => (error_response E e, st')
        end.
Proof.
  intros Hvalid Hacc.
  destruct (species_info_for_total (form_field req "pet_type")) as [info Hinfo].
  pose proof (create_enhanced_prompt_lines (prompt_now E) (pet_data_of req)
                (video_summary E req accepted) _ _ _ _ (pet_data_of_type req)
                (pet_data_of_name req) (pet_data_of_breed req) Hinfo) as Hp.
  eexists. split; [exact Hp|].
  unfold analyze_behavior, analyze_behavior_body.
  rewrite M_bind_read_form. cbv zeta.
  rewrite Hvalid, M_bind_lift_Ok. cbn [negb].
  rewrite (M_bind_Ok _ _ _ _ _ (process_video_eq req st accepted Hacc)).
  rewrite Hp, M_bind_lift_Ok.
  destruct (generate_with_retry E _ _) as [[text|e] st'] eqn:Hgen.
  - rewrite (M_bind_Ok _ _ _ _ _ Hgen).
    unfold getitem. rewrite pet_data_of_name, pet_data_of_type.
    rewrite !M_bind_lift_Ok. reflexivity.
  - rewrite (M_bind_Raise _ _ _ _ _ Hgen). reflexivity.
Qed.

Lemma generate_with_retry_disk (prompt : pystr) (st : State) :
  disk (snd (generate_with_retry E prompt st)) = disk st.
Proof.
  destruct (generate_with_retry_cases E prompt st)
    as [[t ->] | [[t ->] | [[t ->] | ->]]]; reflexivity.
Qed.

Lemma analyze_behavior_disk (req : Request) (st : State) (accepted : bool) :
  validate_input_data (pet_data_of req) = Ok (true, None) →
  upload_accepted (files req !! "video_file") = Ok accepted →
  disk (snd (analyze_behavior E req st))
  = disk (state_after_video E req accepted st).
Proof.
  intros Hvalid Hacc.
  destruct (analyze_behavior_valid req st accepted Hvalid Hacc)
    as (prompt & _ & ->).
  rewrite <- (generate_with_retry_disk prompt (state_after_video E req accepted st)).
  destruct (generate_with_retry E prompt _) as [[text|e] st']; reflexivity.
Qed.

(** C4, as the program has it.  A request whose record fails validation
    writes no file.  For a valid record, when the upload is saved whole, its
    size is read and the removal does not fail, the temporary file is
    deleted within the video step: after the handler returns it is not on
    disk, and the rest of the disk is as before, whether the generation
    that follows succeeds or fails. *)
Theorem upload_deleted_when_processing_succeeds (req : Request) (st : State)
    (f : FileStorage) :
  files req !! "video_file" = Some f →
  upload_accepted (Some f) = Ok true →
  save_behaviour E = SaveCompletes →
  getsize_fails E = false →
  remove_fails E = false →
  (validate_input_data (pet_data_of req) = Ok (true, None) →
   disk (snd (analyze_behavior E req st)) !! upload_path E f = None
   ∧ disk (snd (analyze_behavior E req st)) = delete (upload_path E f) (disk st))
  ∧ (validate_input_data (pet_data_of req) ≠ Ok (true, None) →
     disk (snd (analyze_behavior E req st)) = disk st).
Proof.
  intros Hf Hacc Hsave Hsize Hremove. split.
  - intros Hvalid. rewrite <- Hf in Hacc.
    rewrite (analyze_behavior_disk req st true Hvalid Hacc).
    unfold state_after_video, disk_after_upload.
    rewrite Hf, Hsave, Hsize, Hremove. cbn [orb disk set_disk].
    split; [apply lookup_delete_eq|reflexivity].
  - intros Hinvalid. unfold analyze_behavior, analyze_behavior_body.
    rewrite M_bind_read_form. cbv zeta.
    rewrite validate_input_data_cascade in *.
    destruct (first_failing_check (pet_data_of req)) as [msg|];
      [|now destruct Hinvalid].
    rewrite M_bind_lift_Ok. reflexivity.
Qed.

(** C5, as the program has it.  The captured-video block runs whenever
    the form holds a [captured_video] that starts with "data:video",
    whether or not a file was uploaded, and its summary replaces the one of
    the upload: the payload is decoded, and the Video Summarizer is run on
    the base64 text of the payload.  The summary of the uploaded file
    reaches the Prompt Builder only when no such payload is present; with
    neither, the summary is empty.  The prompt sent to the generation
    service is built from that summary. *)
Theorem captured_video_replaces_upload_summary (req : Request) (st : State) :
  let captured_video := get_default (form req) "captured_video" [] in
  ∃ accepted,
    upload_accepted (files req !! "video_file") = Ok accepted
    ∧ (captured_present captured_video = true →
       fst (process_video E req st) = Ok (captured_summary E captured_video))
    ∧ (∀ header video_data video_bytes,
         split_1 44%N captured_video = [header; video_data] →
         b64decode E video_data = Ok video_bytes →
         captured_summary E captured_video
         = analyze_video_content (PyStr video_data))
    ∧ (captured_present captured_video = false →
       ∀ f, files req !! "video_file" = Some f → accepted = true →
            fst (process_video E req st) = Ok (upload_summary E f))
    ∧ (captured_present captured_video = false →
       files req !! "video_file" = None ∨ accepted = false →
       fst (process_video E req st) = Ok [])
    ∧ (validate_input_data (pet_data_of req) = Ok (true, None) →
       ∃ prompt n,
         fst (process_video E req st) = Ok (video_summary E req accepted)
         ∧ create_enhanced_prompt (prompt_now E) (pet_data_of req)
             (video_summary E req accepted) = Ok prompt
         ∧ (1 ≤ n ≤ 3)%nat
         ∧ calls (snd (analyze_behavior E req st))
           = calls st ++ repeat prompt n).
Proof.
  intros captured_video.
  destruct (upload_accepted_total (files req !! "video_file")) as [accepted Hacc].
  exists accepted. split; [exact Hacc|].
  rewrite (process_video_eq req st accepted Hacc). cbn [fst].
  unfold video_summary. fold captured_video.
  split; [now intros ->|]. split.
  { intros header video_data video_bytes Hsplit Hdec.
    unfold captured_summary. now rewrite Hsplit, Hdec. }
  split; [intros -> f -> ->; reflexivity|]. split.
  { intros -> [-> | ->]; [reflexivity|].
    now destruct (files req !! "video_file"). }
  intros Hvalid.
  destruct (analyze_behavior_valid req st accepted Hvalid Hacc)
    as (prompt & Hp & ->).
  assert (Hcalls : calls (state_after_video E req accepted st) = calls st).
  { unfold state_after_video.
    destruct (files req !! "video_file"); [destruct accepted|]; reflexivity. }
  destruct (generate_with_retry_cases E prompt (state_after_video E req accepted st))
    as [[t ->] | [[t ->] | [[t ->] | ->]]]; cbn [snd].
  - exists prompt, 1%nat. repeat split; [exact Hp|lia|lia|].
    now rewrite calls_one, Hcalls.
  - exists prompt, 2%nat. repeat split; [exact Hp|lia|lia|].
    now rewrite calls_two, Hcalls.
  - exists prompt, 3%nat. repeat split; [exact Hp|lia|lia|].
    now rewrite calls_three, Hcalls.
  - exists prompt, 3%nat. repeat split; [exact Hp|lia|lia|].
    now rewrite calls_three, Hcalls.
Qed.

(** C9. On a valid record every failure of the video step is caught
    within it: the step returns a summary and never raises, whatever the
    save, the size reading, the removal and the decoding do; a failed
    upload leaves the fallback sentence of the upload, an undecodable
    payload the fallback sentence of the captured video.  The prompt is
    built and the generation run all the same: the response is the
    success response whenever the generation gives a text, and a failure
    response comes only from the exhausted retries. *)
Theorem video_failure_never_fails_request (req : Request) (st : State) :
  validate_input_data (pet_data_of req) = Ok (true, None) →
  let captured_video := get_default (form req) "captured_video" [] in
  ∃ accepted prompt,
    upload_accepted (files req !! "video_file") = Ok accepted
    ∧ process_video E req st
      = (Ok (video_summary E req accepted), state_after_video E req accepted st)
    ∧ create_enhanced_prompt (prompt_now E) (pet_data_of req)
        (video_summary E req accepted) = Ok prompt
    ∧ (∀ text st',
         generate_with_retry E prompt (state_after_video E req accepted st)
         = (Ok text, st') →
         analyze_behavior E req st = (success_response E req text, st'))
    ∧ (status (fst (analyze_behavior E req st)) ≠ 200 →
       ∃ st',
         generate_with_retry E prompt (state_after_video E req accepted st)
         = (Raise unavailable, st'))
    ∧ (∀ f, files req !! "video_file" = Some f → accepted = true →
            captured_present captured_video = false →
            save_behaviour E ≠ SaveCompletes ∨ getsize_fails E = true →
            video_summary E req accepted = upload_fallback)
    ∧ (captured_present captured_video = true →
       (∀ header video_data,
          split_1 44%N captured_video = [header; video_data] →
          ∃ e, b64decode E video_data = Raise e) →
       video_summary E req accepted = captured_fallback).
Proof.
  intros Hvalid captured_video.
  destruct (upload_accepted_total (files req !! "video_file")) as [accepted Hacc].
  destruct (analyze_behavior_valid req st accepted Hvalid Hacc)
    as (prompt & Hp & Hresp).
  exists accepted, prompt.
  split; [exact Hacc|]. split; [now apply process_video_eq|].
  split; [exact Hp|]. split; [|split; [|split]].
  - intros text st' Hgen. now rewrite Hresp, Hgen.
  - rewrite Hresp.
    destruct (generate_with_retry_cases E prompt (state_after_video E req accepted st))
      as [[t ->] | [[t ->] | [[t ->] | ->]]]; cbn [fst status];
      first [intros H; now destruct H | eauto].
  - intros f Hf -> Hcap Hfault. unfold video_summary. fold captured_video.
    rewrite Hcap, Hf. unfold upload_summary.
    destruct (save_behaviour E); try reflexivity.
    destruct Hfault as [H | ->]; [now destruct H|reflexivity].
  - intros Hcap Hdec. unfold video_summary. fold captured_video.
    rewrite Hcap. unfold captured_summary.
    destruct (split_1 44%N captured_video) as [|header [|video_data [|x l]]];
      try reflexivity.
    destruct (Hdec header video_data eq_refl) as [e ->]. reflexivity.
Qed.

(** Whenever the retries are exhausted the response is 500 with the generic
    message, whatever the errors of the service said. *)
Lemma exhausted_retries_generic_message (req : Request) (st : State) :
  validate_input_data (pet_data_of req) = Ok (true, None) →
  status (fst (analyze_behavior E req st)) ≠ 200 →
  status (fst (analyze_behavior E req st)) = 500
  ∧ body_field (fst (analyze_behavior E req st)) "error"
    = Some (JStr generic_message).
Proof.
  intros Hvalid Hfail.
  destruct (upload_accepted_total (files req !! "video_file")) as [accepted Hacc].
  destruct (analyze_behavior_valid req st accepted Hvalid Hacc)
    as (prompt & Hp & Hresp).
  rewrite Hresp in *.
  destruct (generate_with_retry_cases E prompt (state_after_video E req accepted st))
    as [[t Hg] | [[t Hg] | [[t Hg] | Hg]]]; rewrite Hg in *;
    try (now destruct Hfail).
  split; reflexivity.
Qed.

(** Whatever the form holds, the prompt the handler builds says that the
    user's question is not specified. *)
Lemma handler_prompt_query_not_specified (req : Request) (va : pystr) :
  validate_input_data (pet_data_of req) = Ok (true, None) →
  ∃ prompt,
    create_enhanced_prompt (prompt_now E) (pet_data_of req) va = Ok prompt
    ∧ contains (str "What user wants to know: Not specified") prompt = true.
Proof.
  intros Hvalid.
  destruct (species_info_for_total (form_field req "pet_type")) as [info Hinfo].
  pose proof (create_enhanced_prompt_lines (prompt_now E) (pet_data_of req)
                va _ _ _ _ (pet_data_of_type req)
                (pet_data_of_name req) (pet_data_of_breed req) Hinfo) as Hp.
  eexists. split; [exact Hp|].
  eapply (prompt_contains_line _ _ _ _ _ _ _ _ 11%nat _ (pet_data_of_type req)
            (pet_data_of_name req) (pet_data_of_breed req) Hinfo Hp).
  unfold prompt_lines, get_default. rewrite pet_data_of_query.
  cbn [lookup list_lookup app default]. f_equal.
Qed.

(** The prompt does not read the key ['context'] of the record. *)
Lemma prompt_ignores_context now (data : pydict) (va context : pystr) :
  create_enhanced_prompt now (<["context" := context]> data) va
  = create_enhanced_prompt now (delete "context" data) va.
Proof.
  unfold create_enhanced_prompt, prompt_lines, getitem, get_default.
  rewrite !lookup_insert_ne by done. rewrite !lookup_delete_ne by done.
  reflexivity.
Qed.
End Facts.

End Handler.

(* ===================================================================== *)
(** ** The examples, run *)
(* ===================================================================== *)

Module Cases.
Import PyStr Exc App Spec Examples.

#[local] Existing Instance ascii_only.

(** C6. The prompt is to carry the user's query, the form's field
    [context].  The handler stores that field under the key ['context'] and
    the Prompt Builder reads the key ['query'], which the handler never
    sets: for the form of Rex, whose [context] asks "Why does he bark at
    night?", the prompt sent to the service says "What user wants to know:
    Not specified" and holds the question nowhere, while the behavior
    description is in it. *)
Theorem user_query_missing_from_prompt :
  form req_plain !! "context" = Some (str "Why does he bark at night?")
  ∧ ∃ prompt,
      calls (snd (analyze_behavior calm req_plain fresh)) = [prompt]
      ∧ contains (str "What user wants to know: Not specified") prompt = true
      ∧ contains (str "Why does he bark at night?") prompt = false
      ∧ contains (str "Primary Behavior: Barks at the door") prompt = true.
Proof.
  split; [reflexivity|]. eexists. split; [vm_compute; reflexivity|].
  vm_compute. auto.
Qed.

(** C7. The message of a failed generation is to follow the text of the
    service's error.  The retry loop replaces that error by its own
    exception, so the handler reads the text of the latter: a service that
    raises a quota error three times gets status 500 with the generic
    message, although the handler's choice of message, given the service's
    text, is the capacity message. *)
Theorem quota_error_gets_generic_message :
  status (fst (analyze_behavior over_quota req_plain fresh)) = 500
  ∧ body_field (fst (analyze_behavior over_quota req_plain fresh)) "error"
    = Some (JStr generic_message)
  ∧ length (calls (snd (analyze_behavior over_quota req_plain fresh))) = 3%nat
  ∧ user_message
      (str "429 Quota exceeded for quota metric 'Generate Content API requests per minute'")
    = capacity_message.
Proof. vm_compute. auto. Qed.

(** The size of the saved upload cannot be read: the request succeeds and
    the temporary file stays on disk.  So it does when the removal fails,
    and a part of it when the disk fills up during the save. *)
Lemma temporary_file_left_counterexample :
  (status (fst (analyze_behavior unreadable_size req_upload fresh)) = 200
   ∧ disk (snd (analyze_behavior unreadable_size req_upload fresh))
       !! upload_path unreadable_size clip
     = Some (stream clip))
  ∧ (status (fst (analyze_behavior locked_file req_upload fresh)) = 200
     ∧ disk (snd (analyze_behavior locked_file req_upload fresh))
         !! upload_path locked_file clip
       = Some (stream clip))
  ∧ (status (fst (analyze_behavior full_disk req_upload fresh)) = 200
     ∧ disk (snd (analyze_behavior full_disk req_upload fresh))
         !! upload_path full_disk clip
       = Some (take 2 (stream clip))).
Proof. vm_compute. auto. Qed.

(** An upload and a captured video together: the summary is the one of the
    captured video, not the one of the uploaded file. *)
Lemma upload_and_captured_counterexample :
  files req_both !! "video_file" = Some clip
  ∧ upload_accepted (Some clip) = Ok true
  ∧ upload_summary calm clip = uploaded_sentence 3
  ∧ fst (process_video calm req_both fresh) = Ok brief_clip_sentence
  ∧ length brief_clip_sentence ≠ length (uploaded_sentence 3).
Proof.
  split; [vm_compute; reflexivity|]. split; [vm_compute; reflexivity|].
  split; [vm_compute; reflexivity|]. split; [vm_compute; reflexivity|].
  vm_compute. lia.
Qed.

Lemma retry_three_attempts_first_success_witness :
  fst (generate_with_retry
         (world SaveCompletes false false (answers_after 1 (str "Rex seems happy.")))
         (str "Describe Rex") fresh)
  = Ok (str "Rex seems happy.")
  ∧ calls (snd (generate_with_retry
         (world SaveCompletes false false (answers_after 1 (str "Rex seems happy.")))
         (str "Describe Rex") fresh))
    = [] ++ repeat (str "Describe Rex") 2
  ∧ slept (snd (generate_with_retry
         (world SaveCompletes false false (answers_after 1 (str "Rex seems happy.")))
         (str "Describe Rex") fresh))
    = (0 + 1)%nat.
Proof.
  apply (GenerationClient.retry_three_attempts_first_success
           (world SaveCompletes false false (answers_after 1 (str "Rex seems happy.")))
           (str "Describe Rex") fresh).
  - lia.
  - intros j Hj. destruct j; [reflexivity|lia].
  - reflexivity.
  - discriminate.
Defined.

Lemma species_without_row_gets_dog_vocabulary_witness :
  ∃ dog prompt,
    pet_type_insights !! str "dog" = Some dog
    ∧ lower (str "Hamster") ∈ [str "hamster"; str "guinea pig"; str "ferret"; str "other"]
    ∧ species_info_for (str "Hamster") = Ok dog
    ∧ create_enhanced_prompt noon
        (<["pet_type" := str "Hamster"]> rex_form) (str "") = Ok prompt
    ∧ contains (str "• Key Behaviors: " ++ behaviors dog) prompt = true
    ∧ contains (str "• Emotional States: " ++ emotions dog) prompt = true
    ∧ contains (str "• Health Indicators: " ++ health_indicators dog) prompt = true
    ∧ (∀ a b, lower a = lower b → species_info_for a = species_info_for b).
Proof.
  apply (PromptBuilder.species_without_row_gets_dog_vocabulary noon
           (<["pet_type" := str "Hamster"]> rex_form) (str "") (str "Hamster")).
  - vm_compute. reflexivity.
  - vm_compute. reflexivity.
  - vm_compute. reflexivity.
Defined.

Lemma upload_deleted_when_processing_succeeds_witness :
  disk (snd (analyze_behavior calm req_upload fresh)) !! upload_path calm clip = None
  ∧ disk (snd (analyze_behavior calm req_upload fresh))
    = delete (upload_path calm clip) (disk fresh).
Proof.
  destruct (Handler.upload_deleted_when_processing_succeeds calm req_upload
              fresh clip) as [Hvalid _].
  - vm_compute. reflexivity.
  - vm_compute. reflexivity.
  - reflexivity.
  - reflexivity.
  - reflexivity.
  - apply Hvalid. vm_compute. reflexivity.
Defined.

Lemma captured_video_replaces_upload_summary_witness :
  fst (process_video calm req_both fresh)
  = Ok (captured_summary calm (get_default (form req_both) "captured_video" [])).
Proof.
  destruct (Handler.captured_video_replaces_upload_summary calm req_both fresh)
    as (accepted & _ & Hcaptured & _).
  apply Hcaptured. vm_compute. reflexivity.
Defined.

Lemma video_failure_never_fails_request_witness :
  ∃ accepted,
    upload_accepted (files req_undecodable !! "video_file") = Ok accepted
    ∧ fst (process_video full_disk req_undecodable fresh)
      = Ok (video_summary full_disk req_undecodable accepted).
Proof.
  destruct (Handler.video_failure_never_fails_request full_disk req_undecodable fresh)
    as (accepted & prompt & Hacc & Hvideo & _).
  - vm_compute. reflexivity.
  - exists accepted. split; [exact Hacc|]. now rewrite Hvideo.
Defined.

End Cases.

(* ===================================================================== *)
(** ** File names *)
(* ===================================================================== *)

Module AllowedFile.
Import PyStr Exc App Statements PyStrFacts Validator Handler.

Lemma In_contains_char (c : char) (s : pystr) :
  In c s → contains [c] s = true.
Proof.
  induction s as [|d s IH]; [intros []|].
  intros [->|Hin]; cbn [contains startswith].
  - now rewrite N.eqb_refl.
  - rewrite (IH Hin). apply orb_true_r.
Qed.

(** [split(sep, 1)] cuts at the first separator. *)
Lemma split_1_first (sep : char) (s : pystr) :
  In sep s →
  ∃ a b, split_1 sep s = [a; b] ∧ s = a ++ sep :: b ∧ ¬ In sep a.
Proof.
  induction s as [|c s IH]; [intros []|]. intros Hin. cbn [split_1].
  destruct (N.eqb_spec c sep) as [->|Hne].
  - exists [], s. repeat split. intros [].
  - destruct Hin as [->|Hin]; [now destruct Hne|].
    destruct (IH Hin) as (a & b & -> & -> & Ha).
    exists (c :: a), b. repeat split. intros [->|H]; [now destruct Hne|auto].
Qed.

(** [rsplit(sep, 1)] cuts at the last separator. *)
Lemma rsplit_1_last (sep : char) (s : pystr) :
  In sep s →
  ∃ a b, rsplit_1 sep s = [a; b] ∧ s = a ++ sep :: b ∧ ¬ In sep b.
Proof.
  intros Hin. apply (proj1 (in_rev _ _)) in Hin.
  destruct (split_1_first sep (rev s) Hin) as (a & b & Hs & Hrev & Ha).
  exists (rev b), (rev a). unfold rsplit_1. rewrite Hs. repeat split.
  - apply (f_equal (@rev char)) in Hrev. rewrite rev_involutive in Hrev.
    rewrite Hrev, rev_app_distr. cbn [rev]. now rewrite <- app_assoc.
  - intros H. apply (proj2 (in_rev _ _)) in H. auto.
Qed.

Lemma first_cut_unique (sep : char) (a a' b b' : pystr) :
  a ++ sep :: b = a' ++ sep :: b' → ¬ In sep a → ¬ In sep a' →
  a = a' ∧ b = b'.
Proof.
  revert a'. induction a as [|c a IH]; intros [|c' a'] Heq Ha Ha'.
  - now injection Heq as ->.
  - injection Heq as <- _. destruct Ha'. now left.
  - injection Heq as -> _. destruct Ha. now left.
  - injection Heq as -> Heq.
    destruct (IH a' Heq) as [-> ->]; [| |easy].
    + intros H. apply Ha. now right.
    + intros H. apply Ha'. now right.
Qed.

Lemma last_cut_unique (sep : char) (a a' b b' : pystr) :
  a ++ sep :: b = a' ++ sep :: b' → ¬ In sep b → ¬ In sep b' →
  a = a' ∧ b = b'.
Proof.
  intros Heq Hb Hb'. apply (f_equal (@rev char)) in Heq.
  rewrite !rev_app_distr in Heq. cbn [rev] in Heq.
  rewrite <- !app_assoc in Heq. cbn [app] in Heq.
  destruct (first_cut_unique sep (rev b) (rev b') (rev a) (rev a') Heq)
    as [Hb1 Ha1].
  - intros H. apply (proj2 (in_rev _ _)) in H. auto.
  - intros H. apply (proj2 (in_rev _ _)) in H. auto.
  - apply (f_equal (@rev char)) in Hb1, Ha1.
    rewrite !rev_involutive in Hb1, Ha1. auto.
Qed.

Section Facts.
Context {U : Unicode}.

(** X1. [allowed_file] never raises; it accepts a name exactly when the
    name has a dot and the text after its last dot, in lower case, is one of
    mp4, avi, mov, webm, mkv.  A name without a dot is refused. *)
Theorem allowed_file_by_last_extension (filename : pystr) :
  ∃ b, allowed_file filename = Ok b
       ∧ (b = true ↔ has_allowed_extension filename)
       ∧ (¬ In 46%N filename → b = false).
Proof.
  unfold allowed_file.
  destruct (contains (str ".") filename) eqn:Hdot.
  - apply (contains_char_In 46%N) in Hdot.
    destruct (rsplit_1_last 46%N filename Hdot) as (a & b & -> & Hcut & Hb).
    cbn [getindex lookup list_lookup]. rewrite res_bind_Ok.
    eexists. split; [reflexivity|]. split; [|intros H; now destruct H].
    rewrite bool_decide_eq_true. split.
    + intros Hext. exists a, b. auto.
    + intros (a' & b' & Hcut' & Hb' & Hext).
      rewrite Hcut in Hcut'.
      destruct (last_cut_unique _ _ _ _ _ Hcut' Hb Hb') as [_ ->]. exact Hext.
  - exists false. split; [reflexivity|]. split; [|reflexivity].
    split; [discriminate|]. intros (a & b & -> & _).
    assert (Hin : In 46%N (a ++ 46%N :: b)) by (apply in_elt).
    apply In_contains_char in Hin.
    change (contains (str ".") (a ++ 46%N :: b) = true) in Hin. congruence.
Qed.
End Facts.

End AllowedFile.

(* ===================================================================== *)
(** ** Prompt Builder: errors and contents *)
(* ===================================================================== *)

Module PromptContents.
Import PyStr Exc App Spec Statements PyStrFacts Validator PromptBuilder.

(** A text that begins and ends with other than whitespace is left as it is
    by [strip]. *)
Lemma strip_fixed (c d : char) (mid : pystr) :
  isspace c = false → isspace d = false →
  strip (c :: mid ++ [d]) = c :: mid ++ [d].
Proof.
  intros Hc Hd. unfold strip, rstrip. cbn [lstrip]. rewrite Hc.
  change (c :: mid ++ [d]) with ((c :: mid) ++ [d]).
  rewrite rev_app_distr. cbn [rev app lstrip]. rewrite Hd.
  change (d :: rev mid ++ [c]) with ((d :: rev mid) ++ [c]).
  rewrite rev_app_distr. cbn [rev app]. now rewrite rev_involutive.
Qed.

Lemma join_lines_ends (first last : pystr) (middle : list pystr) c t t' d :
  first = c :: t → last = t' ++ [d] →
  ∃ mid, join_lines ((first :: middle) ++ [last]) = c :: mid ++ [d].
Proof.
  intros -> ->. rewrite join_lines_snoc by discriminate.
  destruct middle as [|m middle].
  - exists (t ++ 10%N :: t'). cbn [join_lines app]. now rewrite <- app_assoc.
  - rewrite join_lines_cons by discriminate.
    exists (t ++ 10%N :: join_lines (m :: middle) ++ 10%N :: t').
    cbn [app]. rewrite <- !app_assoc. cbn [app]. now rewrite <- !app_assoc.
Qed.

Section Facts.
Context {U : Unicode}.

Lemma prompt_ends now data pet_type info pet_name pet_breed va :
  ∃ mid, join_lines (prompt_lines now data pet_type info pet_name pet_breed va)
         = 89%N :: mid ++ [46%N].
Proof.
  destruct prompt_opening_head as [t Ht].
  destruct prompt_closing_tail_last as [t' Ht'].
  unfold prompt_lines. rewrite app_assoc.
  eapply (join_lines_ends prompt_opening _ _ 89%N t
            (prompt_closing_head ++ pet_name ++ t') 46%N); [exact Ht|].
  rewrite Ht', <- !app_assoc. reflexivity.
Qed.

(** What a prompt that was built comes from. *)
Lemma create_enhanced_prompt_inv now (data : pydict) va prompt :
  create_enhanced_prompt now data va = Ok prompt →
  ∃ pet_type info pet_name pet_breed,
    data !! "pet_type" = Some pet_type
    ∧ data !! "pet_name" = Some pet_name
    ∧ data !! "pet_breed" = Some pet_breed
    ∧ species_info_for pet_type = Ok info
    ∧ prompt = join_lines (prompt_lines now data pet_type info pet_name pet_breed va).
Proof.
  intros Hp.
  destruct (data !! "pet_type") as [pet_type|] eqn:Ht;
    [|unfold create_enhanced_prompt, getitem in Hp; rewrite Ht in Hp;
      rewrite res_bind_Raise in Hp; discriminate Hp].
  destruct (species_info_for_total pet_type) as [info Hi].
  destruct (data !! "pet_name") as [pet_name|] eqn:Hn;
    [|unfold create_enhanced_prompt, getitem in Hp; rewrite Ht, Hn in Hp;
      rewrite res_bind_Ok, Hi, res_bind_Ok, res_bind_Raise in Hp;
      discriminate Hp].
  destruct (data !! "pet_breed") as [pet_breed|] eqn:Hb;
    [|unfold create_enhanced_prompt, getitem in Hp; rewrite Ht, Hn, Hb in Hp;
      rewrite res_bind_Ok, Hi, !res_bind_Ok, res_bind_Raise in Hp;
      discriminate Hp].
  rewrite (create_enhanced_prompt_lines now data va _ _ _ _ Ht Hn Hb Hi) in Hp.
  apply Ok_inj in Hp. exists pet_type, info, pet_name, pet_breed. auto.
Qed.

(** X2. Every prompt the Prompt Builder returns is trimmed, whatever the
    fields of the record hold: stripping it again changes nothing, and it
    begins with the opening line of the template. *)
Theorem prompt_is_trimmed now (data : pydict) va prompt :
  create_enhanced_prompt now data va = Ok prompt →
  strip prompt = prompt ∧ startswith prompt prompt_opening = true.
Proof.
  intros Hp.
  destruct (create_enhanced_prompt_inv _ _ _ _ Hp)
    as (pet_type & info & pet_name & pet_breed & _ & _ & _ & _ & ->).
  split.
  - destruct (prompt_ends now data pet_type info pet_name pet_breed va)
      as [mid ->].
    now apply strip_fixed.
  - unfold prompt_lines. cbn [app]. rewrite join_lines_cons by discriminate.
    apply startswith_app.
Qed.

(** X3. The Prompt Builder raises [KeyError] on a record that lacks one of
    the keys pet_type, pet_name, pet_breed, naming the first one missing in
    that order, and returns a prompt on every record that has the three;
    the keys behavior_desc, vocal_cues and query may be missing. *)
Theorem prompt_needs_three_keys now (data : pydict) va :
  (data !! "pet_type" = None →
   create_enhanced_prompt now data va = Raise (Exn KeyError (str "'pet_type'")))
  ∧ (is_Some (data !! "pet_type") → data !! "pet_name" = None →
     create_enhanced_prompt now data va = Raise (Exn KeyError (str "'pet_name'")))
  ∧ (is_Some (data !! "pet_type") → is_Some (data !! "pet_name") →
     data !! "pet_breed" = None →
     create_enhanced_prompt now data va = Raise (Exn KeyError (str "'pet_breed'")))
  ∧ (is_Some (data !! "pet_type") → is_Some (data !! "pet_name") →
     is_Some (data !! "pet_breed") →
     ∃ prompt, create_enhanced_prompt now data va = Ok prompt).
Proof.
  unfold create_enhanced_prompt, getitem. repeat split.
  - intros ->. reflexivity.
  - intros [t ->] ->. rewrite res_bind_Ok.
    destruct (species_info_for_total t) as [info ->]. reflexivity.
  - intros [t ->] [n ->] ->. rewrite res_bind_Ok.
    destruct (species_info_for_total t) as [info ->]. reflexivity.
  - intros [t Ht] [n Hn] [b Hb].
    destruct (species_info_for_total t) as [info Hi].
    rewrite Ht, res_bind_Ok, Hi, res_bind_Ok, Hn, res_bind_Ok, Hb, res_bind_Ok.
    eauto.
Qed.

(** X4. The prompt built from a record holds the lines of the record: the
    name, the species in title case, the breed, the date to the minute, the
    behavior description and the vocal cues (or "Not specified" where the
    record lacks the key), the species as given in the line of the analysis
    framework, and the line of the video summary when the summary is not
    empty. *)
Theorem prompt_holds_record_lines now (data : pydict) va prompt
    pet_type pet_name pet_breed :
  data !! "pet_type" = Some pet_type →
  data !! "pet_name" = Some pet_name →
  data !! "pet_breed" = Some pet_breed →
  create_enhanced_prompt now data va = Ok prompt →
  contains (str "• Name: " ++ pet_name) prompt = true
  ∧ contains (str "• Species: " ++ title pet_type) prompt = true
  ∧ contains (str "• Breed: " ++ pet_breed) prompt = true
  ∧ contains (str "• Analysis Date: " ++ strftime_minutes now) prompt = true
  ∧ contains (str "Primary Behavior: "
                ++ default (str "Not specified") (data !! "behavior_desc")) prompt = true
  ∧ contains (str "Vocal Cues: "
                ++ default (str "Not specified") (data !! "vocal_cues")) prompt = true
  ∧ contains (str "For " ++ pet_type ++ str " behavioral analysis, focus on:")
      prompt = true
  ∧ (va ≠ [] → contains (str "🎥 VIDEO ANALYSIS: " ++ va) prompt = true).
Proof.
  intros Ht Hn Hb Hp.
  destruct (species_info_for_total pet_type) as [info Hi].
  pose proof (fun i line =>
    prompt_contains_line now data va pet_type pet_name pet_breed info prompt
      i line Ht Hn Hb Hi Hp) as Hline.
  repeat split.
  - now apply (Hline 3%nat).
  - now apply (Hline 4%nat).
  - now apply (Hline 5%nat).
  - now apply (Hline 6%nat).
  - now apply (Hline 9%nat).
  - now apply (Hline 10%nat).
  - now apply (Hline 16%nat).
  - intros Hva. apply (Hline 13%nat).
    destruct va; [now destruct Hva|reflexivity].
Qed.
End Facts.

End PromptContents.

(* ===================================================================== *)
(** ** Video Summarizer: the sentences it can give *)
(* ===================================================================== *)

Module SummarizerRange.
Import PyStr Exc App VideoSummarizer.

(** X5. The Video Summarizer answers with the empty text exactly on an
    empty input, and on every other input with one of its three sentences:
    the sentence of the technical limitations, which its [except] branch
    holds, is never returned. *)
Theorem summarizer_range (v : pyvalue) :
  (analyze_video_content v = [] ↔ value_truthy v = false)
  ∧ (value_truthy v = true →
     analyze_video_content v = high_quality_sentence
     ∨ analyze_video_content v = clear_indicators_sentence
     ∨ analyze_video_content v = brief_clip_sentence)
  ∧ analyze_video_content v ≠ technical_limitations_sentence.
Proof.
  assert (Hsome : value_truthy v = true →
     analyze_video_content v = high_quality_sentence
     ∨ analyze_video_content v = clear_indicators_sentence
     ∨ analyze_video_content v = brief_clip_sentence).
  { intros Hv. unfold analyze_video_content, analyze_video_body. rewrite Hv.
    cbn [negb]. destruct (_ >? 1000000); [left; reflexivity|].
    destruct (_ >? 100000); [right; left; reflexivity|right; right; reflexivity]. }
  assert (Hlen : value_truthy v = true →
                 length (analyze_video_content v) = 99%nat
                 ∨ length (analyze_video_content v) = 81%nat
                 ∨ length (analyze_video_content v) = 65%nat).
  { intros Hv. destruct (Hsome Hv) as [->|[->| ->]];
      [left|right; left|right; right]; vm_compute; reflexivity. }
  split; [|split; [exact Hsome|]].
  - destruct (value_truthy v) eqn:Hv.
    + split; [|discriminate]. intros H.
      destruct (Hlen eq_refl) as [Hl|[Hl|Hl]]; rewrite H in Hl;
        discriminate Hl.
    + split; [reflexivity|]. intros _. now apply analyze_video_content_falsy.
  - intros H. apply (f_equal (@length char)) in H.
    assert (Ht : length technical_limitations_sentence = 85%nat)
      by (vm_compute; reflexivity).
    rewrite Ht in H. destruct (value_truthy v) eqn:Hv.
    + destruct (Hlen eq_refl) as [Hl|[Hl|Hl]]; rewrite Hl in H; discriminate H.
    + rewrite (analyze_video_content_falsy v Hv) in H. discriminate H.
Qed.

End SummarizerRange.

(* ===================================================================== *)
(** ** Request Handler: validation, statuses and effects *)
(* ===================================================================== *)

Module HandlerEffects.
Import PyStr Exc App Spec Statements PyStrFacts Validator PromptBuilder
  GenerationClient Handler.

Lemma lstrip_snoc (l : pystr) (c : char) :
  isspace c = false → ∃ l', lstrip (l ++ [c]) = l' ++ [c].
Proof.
  intros Hc. induction l as [|d l IH]; cbn [app lstrip].
  - rewrite Hc. now exists [].
  - destruct (isspace d); [exact IH|]. now exists (d :: l).
Qed.

(** What [strip] leaves does not begin with whitespace. *)
Lemma strip_head (s : pystr) c r : strip s = c :: r → isspace c = false.
Proof.
  unfold strip, rstrip. intros H.
  destruct (lstrip s) as [|d t] eqn:Hl; [discriminate H|].
  pose proof (lstrip_head _ _ _ Hl) as Hd.
  cbn [rev] in H. destruct (lstrip_snoc (rev t) d Hd) as [l' Hl'].
  rewrite Hl', rev_app_distr in H. cbn [rev app] in H.
  now injection H as <- _.
Qed.

Lemma forallb_isspace_strip (s : pystr) :
  forallb isspace (strip s) = negb (truthy (strip s)).
Proof.
  destruct (strip s) as [|c r] eqn:Hs; [reflexivity|].
  cbn [forallb truthy negb]. now rewrite (strip_head _ _ _ Hs).
Qed.

Section Facts.
Context {U : Unicode} (E : Env).

Lemma pet_data_of_desc (req : Request) :
  pet_data_of req !! "behavior_desc" = Some (form_field req "behavior_desc").
Proof.
  unfold pet_data_of. rewrite !lookup_insert_ne by done.
  apply lookup_insert_eq.
Qed.

(** The validator either accepts a record or names a failing check. *)
Lemma validate_input_data_outcomes (data : pydict) :
  validate_input_data data = Ok (true, None)
  ∨ ∃ msg, validate_input_data data = Ok (false, Some msg).
Proof.
  rewrite validate_input_data_cascade.
  destruct (first_failing_check data); eauto.
Qed.

(** X6. The handler validates the fields after stripping them: a request
    is accepted exactly when its stripped pet_name, pet_type and pet_breed
    are not empty, the stripped pet_type in lower case is in the enumerated
    set, the stripped pet_name has at most 50 characters and the stripped
    behavior_desc at most 2000.  Whitespace around a field neither makes a
    request invalid nor counts towards the lengths. *)
Theorem handler_validates_stripped_fields (req : Request) :
  validate_input_data (pet_data_of req) = Ok (true, None)
  ↔ form_field req "pet_name" ≠ []
    ∧ form_field req "pet_type" ≠ []
    ∧ form_field req "pet_breed" ≠ []
    ∧ in_list (lower (form_field req "pet_type")) valid_pet_types = true
    ∧ len (form_field req "pet_name") ≤ 50
    ∧ len (form_field req "behavior_desc") ≤ 2000.
Proof.
  rewrite validate_input_data_cascade. unfold first_failing_check, blank, get_default.
  rewrite pet_data_of_name, pet_data_of_type, pet_data_of_breed, pet_data_of_desc.
  cbn [default from_option id]. unfold form_field. rewrite !forallb_isspace_strip.
  fold (form_field req "pet_name") (form_field req "pet_type")
    (form_field req "pet_breed") (form_field req "behavior_desc").
  rewrite species_listed_in_list.
  destruct (form_field req "pet_name") as [|c1 n] eqn:Hn; cbn [truthy negb];
    [split; [discriminate|intros (H & _); now destruct H]|].
  destruct (form_field req "pet_type") as [|c2 t] eqn:Ht; cbn [truthy negb];
    [split; [discriminate|intros (_ & H & _); now destruct H]|].
  destruct (form_field req "pet_breed") as [|c3 b] eqn:Hb; cbn [truthy negb];
    [split; [discriminate|intros (_ & _ & H & _); now destruct H]|].
  destruct (in_list _ valid_pet_types); cbn [negb];
    [|split; [discriminate|intros (_ & _ & _ & H & _); discriminate H]].
  destruct (Z.ltb_spec 50 (len (c1 :: n)));
    [split; [discriminate|intros (_ & _ & _ & _ & H' & _); lia]|].
  destruct (Z.ltb_spec 2000 (len (form_field req "behavior_desc")));
    [split; [discriminate|intros (_ & _ & _ & _ & _ & H'); lia]|].
  split; [|reflexivity]. intros _. repeat split; done || lia.
Qed.

(** The handler on a record that fails validation. *)
Lemma analyze_behavior_invalid (req : Request) (st : State) (msg : pystr) :
  validate_input_data (pet_data_of req) = Ok (false, Some msg) →
  analyze_behavior E req st
  = ({| status := 400;
        body := [("success", JBool false);
                 ("error", JStr (str "Invalid input: " ++ msg))] |}, st).
Proof.
  intros Hv. unfold analyze_behavior, analyze_behavior_body.
  rewrite M_bind_read_form. cbv zeta.
  rewrite Hv, M_bind_lift_Ok. reflexivity.
Qed.

(** X7. A request whose record fails validation gets status 400 with the
    message of the failing check after "Invalid input: ", and nothing else
    happens: no file is written even when one was uploaded, the generation
    service is not called, and the handler does not sleep. *)
Theorem invalid_record_gets_400 (req : Request) (st : State) (msg : pystr) :
  validate_input_data (pet_data_of req) = Ok (false, Some msg) →
  analyze_behavior E req st
  = ({| status := 400;
        body := [("success", JBool false);
                 ("error", JStr (str "Invalid input: " ++ msg))] |}, st).
Proof.
  intros Hv. unfold analyze_behavior, analyze_behavior_body.
  rewrite M_bind_read_form. cbv zeta.
  rewrite Hv, M_bind_lift_Ok. reflexivity.
Qed.

Lemma generate_with_retry_nonempty (prompt : pystr) (st st' : State) text :
  generate_with_retry E prompt st = (Ok text, st') → text ≠ [].
Proof.
  rewrite generate_with_retry_eq. cbv zeta.
  destruct (generate_content E (length (calls st) + 0) prompt)
    as [[|c0 t0]|e0];
    try (intros [= <- _]; discriminate);
    (destruct (generate_content E (length (calls st) + 1) prompt)
       as [[|c1 t1]|e1];
     try (intros [= <- _]; discriminate));
    (destruct (generate_content E (length (calls st) + 2) prompt)
       as [[|c2 t2]|e2];
     try (intros [= <- _]; discriminate); discriminate).
Qed.

(** The handler on a request whose form cannot be read. *)
Lemma analyze_behavior_unreadable (e : exn) (st : State) :
  analyze_behavior E (Unreadable e) st = (error_response E e, st).
Proof. reflexivity. Qed.

(** X8. The handler answers with status 200, 400 or 500 and no other.  The
    status is 400 exactly when the form was read and its record fails
    validation; a request whose form cannot be read (a body over the size
    limit) is answered from the handler's [except] block, with status 500
    and nothing done; and a 200 response carries an analysis that is not
    empty. *)
Theorem handler_statuses (incoming : Incoming) (st : State) :
  let response := fst (analyze_behavior E incoming st) in
  (status response = 200 ∨ status response = 400 ∨ status response = 500)
  ∧ (status response = 400
     ↔ ∃ req, incoming = Read req
              ∧ validate_input_data (pet_data_of req) ≠ Ok (true, None))
  ∧ (∀ e, incoming = Unreadable e →
          analyze_behavior E incoming st = (error_response E e, st))
  ∧ (status response = 200 →
     ∃ text, text ≠ [] ∧ body_field response "analysis" = Some (JStr text)).
Proof.
  cbv zeta. destruct incoming as [req|e].
  - destruct (validate_input_data_outcomes (pet_data_of req)) as [Hv|[msg Hv]].
    + destruct (upload_accepted_total (files req !! "video_file")) as [acc Hacc].
      destruct (analyze_behavior_valid E req st acc Hv Hacc) as (prompt & _ & ->).
      destruct (generate_with_retry E prompt _) as [[text|e] st'] eqn:Hgen;
        cbn [fst status error_response success_response].
      * split; [auto|]. split.
        { split; [discriminate|]. intros (r & [= <-] & H). now destruct H. }
        split; [discriminate|].
        intros _. exists text. split; [|reflexivity].
        exact (generate_with_retry_nonempty _ _ _ _ Hgen).
      * split; [auto|]. split.
        { split; [discriminate|]. intros (r & [= <-] & H). now destruct H. }
        split; discriminate.
    + rewrite (analyze_behavior_invalid req st msg Hv). cbn [fst status].
      split; [auto|]. split.
      { split; [|reflexivity]. intros _. exists req. split; [reflexivity|].
        rewrite Hv. discriminate. }
      split; discriminate.
  - rewrite analyze_behavior_unreadable. cbn [fst status error_response].
    split; [auto|]. split.
    { split; [discriminate|]. intros (r & [=] & _). }
    split; [intros e' [= <-]; reflexivity|discriminate].
Qed.

(** X9. The handler changes the disk at one path at most, the path it
    saves the upload to: every other path holds after the request what it
    held before, whatever fails; and a request without an uploaded file
    leaves the whole disk as it was. *)
Theorem handler_touches_only_upload_path (req : Request) (st : State) :
  (∀ path,
     (∀ f, files req !! "video_file" = Some f → path ≠ upload_path E f) →
     disk (snd (analyze_behavior E req st)) !! path = disk st !! path)
  ∧ (files req !! "video_file" = None →
     disk (snd (analyze_behavior E req st)) = disk st).
Proof.
  destruct (validate_input_data_outcomes (pet_data_of req)) as [Hv|[msg Hv]].
  - destruct (upload_accepted_total (files req !! "video_file")) as [acc Hacc].
    rewrite (analyze_behavior_disk E req st acc Hv Hacc).
    unfold state_after_video, disk_after_upload.
    destruct (files req !! "video_file") as [f|]; [|split; reflexivity].
    split; [|discriminate]. intros path Hpath.
    specialize (Hpath f eq_refl).
    destruct acc; [|reflexivity]. cbn [disk set_disk].
    destruct (save_behaviour E); [destruct (getsize_fails E || remove_fails E)| |].
    + now apply lookup_insert_ne.
    + now apply lookup_delete_ne.
    + reflexivity.
    + now apply lookup_insert_ne.
  - rewrite (analyze_behavior_invalid req st msg Hv). split; reflexivity.
Qed.

(** A literal of one ASCII character more. *)
Lemma str_cons_ascii (a : ascii) (s : string) :
  (N_of_ascii a <? 128)%N = true → str (String a s) = N_of_ascii a :: str s.
Proof.
  intros Ha. unfold str. cbn [list_ascii_of_string map utf8_decode].
  now rewrite Ha.
Qed.

(** The decimal digits of a number hold no slash. *)
Lemma digits_no_slash (d : Decimal.uint) :
  ¬ In 47%N (str (NilEmpty.string_of_uint d)).
Proof.
  induction d; cbn [NilEmpty.string_of_uint];
    [intros []|rewrite str_cons_ascii by reflexivity..];
    (intros [H|H]; [discriminate H|auto]).
Qed.

Lemma dec_no_slash (n : N) : ¬ In 47%N (dec n).
Proof.
  unfold dec, NilZero.string_of_uint.
  destruct (N.to_uint n) eqn:Hd; try (rewrite <- Hd; apply digits_no_slash).
  intros [H|[]]. discriminate H.
Qed.

(** [rsplit] at the last separator of a text cut there. *)
Lemma rsplit_1_cut (sep : char) (a b : pystr) :
  ¬ In sep b → rsplit_1 sep (a ++ sep :: b) = [a; b].
Proof.
  intros Hb.
  destruct (AllowedFile.rsplit_1_last sep (a ++ sep :: b)) as (a' & b' & -> & Hcut & Hb');
    [apply in_elt|].
  now destruct (AllowedFile.last_cut_unique _ _ _ _ _ Hcut Hb Hb') as [-> ->].
Qed.

(** X10. When the secured file name holds no slash, the upload is saved
    directly in the upload folder: its path splits at the last slash into
    static/uploads and the file name "video_", the time of the upload, an
    underscore and the secured name.  And two uploads named in the same
    second go to the same path exactly when their secured names are
    equal. *)
Theorem upload_saved_directly_in_upload_folder (f : FileStorage) :
  (¬ In 47%N (secure_filename E (filename f)) →
   rsplit_1 47%N (upload_path E f)
   = [UPLOAD_FOLDER;
      str "video_" ++ dec (upload_time E) ++ str "_"
        ++ secure_filename E (filename f)])
  ∧ (∀ (E' : Env) (f' : FileStorage),
       upload_time E' = upload_time E →
       (upload_path E f = upload_path E' f'
        ↔ secure_filename E (filename f) = secure_filename E' (filename f'))).
Proof.
  assert (Hpath : ∀ (W : Env) (g : FileStorage),
            upload_path W g
            = UPLOAD_FOLDER ++ 47%N
                :: (str "video_" ++ dec (upload_time W) ++ str "_"
                      ++ secure_filename W (filename g))) by reflexivity.
  split.
  - intros Hname. rewrite Hpath. apply rsplit_1_cut.
    intros Hin. apply in_app_or in Hin as [Hin|Hin].
    { vm_compute in Hin. intuition discriminate. }
    apply in_app_or in Hin as [Hin|Hin]; [now apply dec_no_slash in Hin|].
    apply in_app_or in Hin as [Hin|Hin]; [|auto].
    vm_compute in Hin. intuition discriminate.
  - intros E' f' Htime. rewrite !Hpath, Htime. split.
    + intros H. apply app_inv_head in H.
      apply (app_inv_head [47%N]) in H.
      now repeat apply app_inv_head in H.
    + now intros ->.
Qed.

(** The calls and the sleeps of the retry loop. *)
Lemma generate_with_retry_counts (prompt : pystr) (st : State) :
  ∃ n, (1 ≤ n ≤ 3)%nat
       ∧ length (calls (snd (generate_with_retry E prompt st)))
         = (length (calls st) + n)%nat
       ∧ slept (snd (generate_with_retry E prompt st)) = (slept st + (n - 1))%nat.
Proof.
  destruct (generate_with_retry_cases E prompt st)
    as [[t ->] | [[t ->] | [[t ->] | ->]]]; cbn [snd].
  - exists 1%nat. rewrite calls_one, length_app, repeat_length.
    cbn [slept add_call add_sleep]. lia.
  - exists 2%nat. rewrite calls_two, length_app, repeat_length.
    cbn [slept add_call add_sleep]. lia.
  - exists 3%nat. rewrite calls_three, length_app, repeat_length.
    cbn [slept add_call add_sleep]. lia.
  - exists 3%nat. rewrite calls_three, length_app, repeat_length.
    cbn [slept add_call add_sleep]. lia.
Qed.

(** X11. Over a whole request the handler calls the generation service
    [n] times with [n] at most 3, and sleeps [n - 1] seconds: one second
    between two attempts, none before the first or after the last, two
    seconds at most.  It calls the service not at all exactly when the form
    cannot be read or its record fails validation. *)
Theorem handler_calls_and_sleeps (incoming : Incoming) (st : State) :
  let st' := snd (analyze_behavior E incoming st) in
  ∃ n, (n ≤ 3)%nat
       ∧ length (calls st') = (length (calls st) + n)%nat
       ∧ slept st' = (slept st + (n - 1))%nat
       ∧ (n = 0%nat
          ↔ (∃ e, incoming = Unreadable e)
            ∨ ∃ req, incoming = Read req
                     ∧ validate_input_data (pet_data_of req) ≠ Ok (true, None)).
Proof.
  cbv zeta. destruct incoming as [req|e].
  - destruct (validate_input_data_outcomes (pet_data_of req)) as [Hv|[msg Hv]].
    + destruct (upload_accepted_total (files req !! "video_file")) as [acc Hacc].
      destruct (analyze_behavior_valid E req st acc Hv Hacc) as (prompt & _ & ->).
      destruct (generate_with_retry_counts prompt (state_after_video E req acc st))
        as (n & Hn & Hcalls & Hslept).
      assert (Hst : calls (state_after_video E req acc st) = calls st
                    ∧ slept (state_after_video E req acc st) = slept st).
      { unfold state_after_video.
        destruct (files req !! "video_file"); [destruct acc|]; split; reflexivity. }
      destruct Hst as [Hc Hs]. rewrite Hc in Hcalls. rewrite Hs in Hslept.
      exists n.
      destruct (generate_with_retry E prompt _) as [[text|e] st']; cbn [snd] in *;
        (split; [lia|]; split; [exact Hcalls|]; split; [exact Hslept|];
         split; [lia|];
         intros [[e' [=]]|(r & [= <-] & H)]; now destruct H).
    + rewrite (analyze_behavior_invalid req st msg Hv). cbn [snd].
      exists 0%nat. split; [lia|]. split; [lia|]. split; [cbn; lia|].
      split; [|reflexivity]. intros _. right. exists req.
      split; [reflexivity|]. rewrite Hv. discriminate.
  - rewrite analyze_behavior_unreadable. cbn [snd].
    exists 0%nat. split; [lia|]. split; [lia|]. split; [cbn; lia|].
    split; [|reflexivity]. intros _. left. eauto.
Qed.
End Facts.

End HandlerEffects.

(* ===================================================================== *)
(** ** The response hook *)
(* ===================================================================== *)

Module HooksFacts.
Import PyStr Exc App Hooks PyStrFacts.

Section Facts.
Context {U : Unicode}.

Lemma same_name_refl (k : pystr) : same_name k k = true.
Proof. unfold same_name. now apply pystr_eqb_eq. Qed.

Lemma same_name_trans_false (a k k' : pystr) :
  same_name a k = true → same_name k k' = false → same_name a k' = false.
Proof.
  unfold same_name, pystr_eqb. intros Ha Hk.
  apply bool_decide_eq_true in Ha. apply bool_decide_eq_false in Hk.
  apply bool_decide_eq_false. congruence.
Qed.

(** Dropping the lines of one name hides no line of another. *)
Lemma find_after_drop (h : Headers) (k k' : pystr) :
  same_name k k' = false →
  find (fun line => same_name (fst line) k')
       (filter (fun l => same_name (fst l) k = false) h)
  = find (fun line => same_name (fst line) k') h.
Proof.
  intros Hk. induction h as [|line h IH]; [reflexivity|].
  rewrite filter_cons. destruct (decide (same_name (fst line) k = false)) as [Hd|Hd].
  - cbn [find]. now rewrite IH.
  - apply not_false_is_true in Hd. cbn [find].
    now rewrite (same_name_trans_false _ _ _ Hd Hk).
Qed.

(** Reading a header just set gives the value set. *)
Lemma get_set_eq (h : Headers) (k v : pystr) :
  headers_get (headers_set h k v) k = Some v.
Proof.
  unfold headers_get. induction h as [|line h IH]; cbn [headers_set].
  - cbn [find fst]. now rewrite same_name_refl.
  - destruct (same_name (fst line) k) eqn:Hl.
    + cbn [find fst]. now rewrite same_name_refl.
    + cbn [find]. now rewrite Hl.
Qed.

(** Setting a header leaves the reading of every other name as it was. *)
Lemma get_set_ne (h : Headers) (k v k' : pystr) :
  same_name k k' = false →
  headers_get (headers_set h k v) k' = headers_get h k'.
Proof.
  intros Hk. unfold headers_get. induction h as [|line h IH]; cbn [headers_set].
  - cbn [find fst]. now rewrite Hk.
  - destruct (same_name (fst line) k) eqn:Hl.
    + cbn [find fst]. rewrite Hk, (same_name_trans_false _ _ _ Hl Hk).
      now rewrite find_after_drop.
    + cbn [find]. destruct (same_name (fst line) k'); [reflexivity|exact IH].
Qed.

Lemma lines_named_drop (h : Headers) (k : pystr) :
  lines_named (filter (fun l => same_name (fst l) k = false) h) k = 0%nat.
Proof.
  unfold lines_named. induction h as [|line h IH]; [reflexivity|].
  rewrite filter_cons.
  destruct (decide (same_name (fst line) k = false)) as [Hd|Hd]; [|exact IH].
  rewrite filter_cons, decide_False by congruence. exact IH.
Qed.

(** After a header is set there is one line of its name. *)
Lemma lines_named_set (h : Headers) (k v : pystr) :
  lines_named (headers_set h k v) k = 1%nat.
Proof.
  induction h as [|line h IH]; cbn [headers_set].
  - unfold lines_named. rewrite filter_cons, decide_True by apply same_name_refl.
    reflexivity.
  - destruct (same_name (fst line) k) eqn:Hl.
    + unfold lines_named.
      rewrite filter_cons, decide_True by apply same_name_refl.
      cbn [length]. f_equal. apply lines_named_drop.
    + unfold lines_named in *. rewrite filter_cons, decide_False by congruence.
      exact IH.
Qed.

Lemma lines_named_drop_ne (h : Headers) (k k' : pystr) :
  same_name k k' = false →
  lines_named (filter (fun l => same_name (fst l) k = false) h) k'
  = lines_named h k'.
Proof.
  intros Hk. unfold lines_named. induction h as [|line h IH]; [reflexivity|].
  rewrite filter_cons.
  destruct (decide (same_name (fst line) k = false)) as [Hd|Hd].
  - rewrite !filter_cons.
    destruct (decide (same_name (fst line) k' = true)); cbn [length];
      now rewrite IH.
  - apply not_false_is_true in Hd.
    rewrite (filter_cons _ line), decide_False
      by (rewrite (same_name_trans_false _ _ _ Hd Hk); discriminate).
    exact IH.
Qed.

Lemma lines_named_set_ne (h : Headers) (k v k' : pystr) :
  same_name k k' = false →
  lines_named (headers_set h k v) k' = lines_named h k'.
Proof.
  intros Hk. induction h as [|line h IH]; cbn [headers_set].
  - unfold lines_named. rewrite filter_cons, decide_False by (cbn [fst]; congruence).
    reflexivity.
  - destruct (same_name (fst line) k) eqn:Hl.
    + unfold lines_named at 1.
      rewrite filter_cons, decide_False by (cbn [fst]; congruence).
      fold (lines_named (filter (fun l => same_name (fst l) k = false) h) k').
      rewrite lines_named_drop_ne by exact Hk.
      unfold lines_named. rewrite filter_cons, decide_False
        by (rewrite (same_name_trans_false _ _ _ Hl Hk); discriminate).
      reflexivity.
    + unfold lines_named in *. rewrite !filter_cons.
      destruct (decide (same_name (fst line) k' = true)); cbn [length];
        now rewrite IH.
Qed.

(** X12. Every response leaves the hook with the four security headers set
    to their fixed values, whatever headers it came with: each is read with
    its value, and each has one line only, also when the response had set it
    before, under any spelling of its name and any number of times.  The
    payload of the response is not touched. *)
Theorem security_headers_always_set (path : pystr) (response : FlaskResponse) :
  let out := add_security_headers path response in
  payload out = payload response
  ∧ headers_get (headers out) (str "X-Content-Type-Options") = Some (str "nosniff")
  ∧ headers_get (headers out) (str "X-Frame-Options") = Some (str "DENY")
  ∧ headers_get (headers out) (str "X-XSS-Protection") = Some (str "1; mode=block")
  ∧ headers_get (headers out) (str "Referrer-Policy")
    = Some (str "strict-origin-when-cross-origin")
  ∧ (∀ name, name ∈ security_names → lines_named (headers out) name = 1%nat).
Proof.
  cbv zeta. unfold add_security_headers. cbv zeta. cbn [payload headers].
  split; [reflexivity|].
  destruct (startswith path (str "/api/"));
    (split; [|split; [|split; [|split]]]);
    try (rewrite ?get_set_ne by (vm_compute; reflexivity); apply get_set_eq);
    (intros name Hname; unfold security_names in Hname;
     repeat match type of Hname with
            | _ ∈ _ :: _ => apply elem_of_cons in Hname as [->|Hname]
            end;
     [..|inversion Hname];
     rewrite ?lines_named_set_ne by (vm_compute; reflexivity);
     apply lines_named_set).
Qed.

(** X13. The three CORS headers are set on the responses to paths that
    begin with /api/ and on no others: on such a path they are read with
    their fixed values, and on every path the reading of a header that the
    hook does not set (the CORS headers, off the API) is what it was. *)
Theorem cors_headers_on_api_only (path : pystr) (response : FlaskResponse) :
  let out := add_security_headers path response in
  (startswith path (str "/api/") = true →
   headers_get (headers out) (str "Access-Control-Allow-Origin") = Some (str "*")
   ∧ headers_get (headers out) (str "Access-Control-Allow-Methods")
     = Some (str "GET, POST, OPTIONS")
   ∧ headers_get (headers out) (str "Access-Control-Allow-Headers")
     = Some (str "Content-Type"))
  ∧ (∀ name,
       (∀ set, set ∈ security_names → same_name set name = false) →
       (startswith path (str "/api/") = true →
        ∀ set, set ∈ cors_names → same_name set name = false) →
       headers_get (headers out) name = headers_get (headers response) name).
Proof.
  cbv zeta. unfold add_security_headers. cbv zeta. cbn [payload headers].
  split.
  - intros ->. repeat split;
      rewrite ?get_set_ne by (vm_compute; reflexivity); apply get_set_eq.
  - intros name Hsec Hcors.
    assert (Hs : ∀ i set, security_names !! i = Some set →
                          same_name set name = false).
    { intros i set Hi. apply Hsec. eapply list_elem_of_lookup_2, Hi. }
    pose proof (Hs 0%nat _ eq_refl) as H0. pose proof (Hs 1%nat _ eq_refl) as H1.
    pose proof (Hs 2%nat _ eq_refl) as H2. pose proof (Hs 3%nat _ eq_refl) as H3.
    destruct (startswith path (str "/api/")).
    + assert (Hc : ∀ i set, cors_names !! i = Some set →
                            same_name set name = false).
      { intros i set Hi. apply (Hcors eq_refl). eapply list_elem_of_lookup_2, Hi. }
      pose proof (Hc 0%nat _ eq_refl) as H4. pose proof (Hc 1%nat _ eq_refl) as H5.
      pose proof (Hc 2%nat _ eq_refl) as H6.
      now rewrite !get_set_ne by assumption.
    + now rewrite !get_set_ne by assumption.
Qed.
End Facts.

End HooksFacts.

(* ===================================================================== *)
(** ** The sweep of the upload folder *)
(* ===================================================================== *)

Module SweepFacts.
Import PyStr Exc App Sweep.

Section Facts.
Context (E : SweepEnv).

Lemma older_than_an_hour_true (file_age : Q) :
  older_than_an_hour file_age = true ↔ (3600 < file_age)%Q.
Proof.
  unfold older_than_an_hour. rewrite negb_true_iff. split.
  - intros H. apply Qnot_le_lt. intros Hle. apply Qle_bool_iff in Hle.
    congruence.
  - intros H. destruct (Qle_bool file_age 3600) eqn:Hb; [|reflexivity].
    apply Qle_bool_iff in Hb. lra.
Qed.

(** A path stays stale or not when a name that does not lead to it is
    listed too and another path is removed. *)
Lemma stale_step (filename : pystr) (rest : list pystr) (t t' : tree)
    (path : pystr) :
  path ≠ os_path_join UPLOAD_FOLDER filename →
  t' !! path = t !! path →
  stale E (filename :: rest) t path ↔ stale E rest t' path.
Proof.
  intros Hne Hsame. unfold stale. rewrite Hsame. split.
  - intros [(name & Hin & Hp) Hn]. split; [|exact Hn].
    apply elem_of_cons in Hin as [->|Hin]; [now destruct Hne|eauto].
  - intros [(name & Hin & Hp) Hn]. split; [|exact Hn].
    exists name. split; [now apply list_elem_of_further|exact Hp].
Qed.

(** One step of the loop, by what it finds at the path. *)
Lemma sweep_loop_skip (filename : pystr) (rest : list pystr) (t : tree) :
  (∀ n, t !! os_path_join UPLOAD_FOLDER filename = Some n →
        ¬ (is_regular n = true ∧ (3600 < current_time E - ctime n)%Q)) →
  sweep_loop E (filename :: rest) t = sweep_loop E rest t.
Proof.
  intros Hn. cbn [sweep_loop]. unfold os_path_isfile, os_path_getctime.
  destruct (t !! os_path_join UPLOAD_FOLDER filename) as [n|]; [|reflexivity].
  destruct (is_regular n) eqn:Hr; [|reflexivity].
  destruct (older_than_an_hour (current_time E - ctime n)) eqn:Ho; [|reflexivity].
  apply older_than_an_hour_true in Ho. destruct (Hn n eq_refl). auto.
Qed.

Lemma sweep_loop_stale (filename : pystr) (rest : list pystr) (t : tree) n :
  t !! os_path_join UPLOAD_FOLDER filename = Some n →
  is_regular n = true → (3600 < current_time E - ctime n)%Q →
  sweep_loop E (filename :: rest) t
  = if removal_refused E (os_path_join UPLOAD_FOLDER filename)
    then (Some (Exn OSError (str "[Errno 13] Permission denied")), t)
    else sweep_loop E rest (delete (os_path_join UPLOAD_FOLDER filename) t).
Proof.
  intros Hn Hr Ho. cbn [sweep_loop].
  unfold os_path_isfile, os_path_getctime, sweep_remove. rewrite Hn, Hr.
  apply older_than_an_hour_true in Ho. rewrite Ho.
  destruct (removal_refused E _); reflexivity.
Qed.

Lemma stale_dec_step (filename : pystr) (t : tree) :
  (∃ n, t !! os_path_join UPLOAD_FOLDER filename = Some n
        ∧ is_regular n = true ∧ (3600 < current_time E - ctime n)%Q)
  ∨ (∀ n, t !! os_path_join UPLOAD_FOLDER filename = Some n →
          ¬ (is_regular n = true ∧ (3600 < current_time E - ctime n)%Q)).
Proof.
  destruct (t !! os_path_join UPLOAD_FOLDER filename) as [n|];
    [|right; intros n [=]].
  destruct (is_regular n) eqn:Hr;
    [|right; intros ? [= <-] [H _]; congruence].
  destruct (Qlt_le_dec 3600 (current_time E - ctime n)) as [Hlt|Hle].
  - left. eauto.
  - right. intros ? [= <-] [_ H]. lra.
Qed.

(** The loop removes nothing but stale paths and changes nothing else. *)
Lemma sweep_loop_safe (names : list pystr) (t : tree) (path : pystr) :
  snd (sweep_loop E names t) !! path = t !! path
  ∨ (snd (sweep_loop E names t) !! path = None ∧ stale E names t path).
Proof.
  revert t. induction names as [|filename rest IH]; intros t; [now left|].
  destruct (stale_dec_step filename t) as [(n & Hn & Hr & Ho)|Hskip].
  - rewrite (sweep_loop_stale _ _ _ _ Hn Hr Ho).
    destruct (removal_refused E _); [now left|].
    set (p0 := os_path_join UPLOAD_FOLDER filename) in *.
    destruct (decide (path = p0)) as [->|Hne].
    + right. split.
      * destruct (IH (delete p0 t)) as [->|[-> _]];
          [apply lookup_delete_eq|reflexivity].
      * split; [exists filename; split; [apply list_elem_of_here|reflexivity]|].
        eauto.
    + destruct (IH (delete p0 t)) as [->|[-> Hs]].
      * left. now apply lookup_delete_ne.
      * right. split; [reflexivity|].
        apply (stale_step filename rest t (delete p0 t) path Hne);
          [now apply lookup_delete_ne|exact Hs].
  - rewrite (sweep_loop_skip _ _ _ Hskip).
    destruct (IH t) as [->|[-> Hs]]; [now left|]. right. split; [reflexivity|].
    destruct Hs as [(name & Hin & Hp) Hnode]. split; [|exact Hnode].
    exists name. split; [now apply list_elem_of_further|exact Hp].
Qed.

(** When no removal is refused the loop ends without an exception and
    removes every stale path. *)
Lemma sweep_loop_complete (names : list pystr) (t : tree) (path : pystr) :
  (∀ p, removal_refused E p = false) →
  fst (sweep_loop E names t) = None
  ∧ (stale E names t path → snd (sweep_loop E names t) !! path = None).
Proof.
  intros Hfree. revert t. induction names as [|filename rest IH]; intros t.
  { split; [reflexivity|]. intros [(name & Hin & _) _]. inversion Hin. }
  set (p0 := os_path_join UPLOAD_FOLDER filename).
  destruct (stale_dec_step filename t) as [(n & Hn & Hr & Ho)|Hskip].
  - rewrite (sweep_loop_stale _ _ _ _ Hn Hr Ho), Hfree. fold p0.
    split; [apply IH|]. intros Hs.
    destruct (decide (path = p0)) as [->|Hne].
    + destruct (sweep_loop_safe rest (delete p0 t) p0) as [->|[-> _]];
        [apply lookup_delete_eq|reflexivity].
    + apply IH.
      apply (stale_step filename rest t (delete p0 t) path Hne);
        [now apply lookup_delete_ne|exact Hs].
  - rewrite (sweep_loop_skip _ _ _ Hskip). split; [apply IH|]. intros Hs.
    apply IH. destruct Hs as [(name & Hin & Hp) (n & Hn & Hr & Ho)].
    split; [|eauto]. apply elem_of_cons in Hin as [->|Hin]; [|eauto].
    subst path. destruct (Hskip n Hn). auto.
Qed.

(** The sweep, whatever happens: what is gone was stale. *)
Lemma cleanup_safe (t : tree) (path : pystr) :
  cleanup_old_files E t !! path = t !! path
  ∨ (cleanup_old_files E t !! path = None
     ∧ ∃ names, listdir E = Ok names ∧ stale E names t path).
Proof.
  unfold cleanup_old_files.
  destruct (upload_dir_exists E); [|now left].
  destruct (listdir E) as [names|e]; [|now left].
  destruct (sweep_loop_safe names t path) as [H|[H Hs]]; [now left|].
  right. eauto.
Qed.

(** The sweep when nothing is refused: what was stale is gone. *)
Lemma cleanup_complete (t : tree) (names : list pystr) (path : pystr) :
  upload_dir_exists E = true →
  listdir E = Ok names →
  (∀ p, removal_refused E p = false) →
  (stale E names t path → cleanup_old_files E t !! path = None)
  ∧ (¬ stale E names t path → cleanup_old_files E t !! path = t !! path).
Proof.
  intros Hdir Hlist Hfree. unfold cleanup_old_files. rewrite Hdir, Hlist. split.
  - apply sweep_loop_complete, Hfree.
  - intros Hns. destruct (sweep_loop_safe names t path) as [H|[_ Hs]];
      [exact H|now destruct Hns].
Qed.

(** X14. The sweep removes nothing but regular files of the upload folder
    that are older than an hour, and changes nothing else: whatever the
    order of the listing, whichever removals are refused and whether or not
    the folder can be listed, every path holds after it what it held before,
    or held a listed regular file older than 3600 seconds and is gone.
    Directories, files of an hour or less (a file exactly an hour old
    included) and paths outside the listing are never removed. *)
Theorem sweep_removes_only_stale_files (t : tree) (path : pystr) :
  cleanup_old_files E t !! path = t !! path
  ∨ (cleanup_old_files E t !! path = None
     ∧ ∃ names, listdir E = Ok names ∧ stale E names t path).
Proof.
  unfold cleanup_old_files.
  destruct (upload_dir_exists E); [|now left].
  destruct (listdir E) as [names|e]; [|now left].
  destruct (sweep_loop_safe names t path) as [H|[H Hs]]; [now left|].
  right. eauto.
Qed.

(** X15. When the folder exists, is listed and no removal is refused, the
    sweep removes every listed regular file older than an hour; with X14,
    it leaves exactly the rest. *)
Theorem sweep_removes_every_stale_file (t : tree) (names : list pystr)
    (path : pystr) :
  upload_dir_exists E = true →
  listdir E = Ok names →
  (∀ p, removal_refused E p = false) →
  (stale E names t path → cleanup_old_files E t !! path = None)
  ∧ (¬ stale E names t path → cleanup_old_files E t !! path = t !! path).
Proof.
  intros Hdir Hlist Hfree. unfold cleanup_old_files. rewrite Hdir, Hlist. split.
  - apply sweep_loop_complete, Hfree.
  - intros Hns. destruct (sweep_loop_safe names t path) as [H|[_ Hs]];
      [exact H|now destruct Hns].
Qed.

(** X16. Sweeping twice is sweeping once, when no removal is refused: the
    second sweep, run at the same reading of the clock over the same
    listing, finds nothing left to remove. *)
Theorem sweep_twice (t : tree) :
  (∀ p, removal_refused E p = false) →
  cleanup_old_files E (cleanup_old_files E t) = cleanup_old_files E t.
Proof.
  intros Hfree.
  destruct (upload_dir_exists E) eqn:Hdir;
    [|unfold cleanup_old_files; now rewrite Hdir].
  apply map_eq. intros path.
  destruct (cleanup_safe (cleanup_old_files E t) path)
    as [H|[_ (names & Hlist & Hs)]]; [exact H|].
  exfalso. destruct Hs as [Hlisted (n & Hn & Hr & Ho)].
  destruct (cleanup_complete t names path Hdir Hlist Hfree)
    as [Hgone _].
  destruct (cleanup_safe t path) as [H|[H _]];
    [|congruence].
  rewrite H in Hn. rewrite Hgone in H by (split; eauto). congruence.
Qed.
End Facts.

End SweepFacts.

(* ===================================================================== *)
(** ** The further examples, run *)
(* ===================================================================== *)

Module MoreCases.
Import PyStr Exc App Spec Statements Hooks Sweep Examples MoreExamples.

#[local] Existing Instance ascii_only.

Lemma prompt_is_trimmed_witness :
  ∃ prompt,
    create_enhanced_prompt noon bare_record (str "") = Ok prompt
    ∧ strip prompt = prompt
    ∧ startswith prompt prompt_opening = true.
Proof.
  destruct (PromptBuilder.species_info_for_total (str "dog")) as [info Hinfo].
  pose proof (PromptBuilder.create_enhanced_prompt_lines noon bare_record (str "")
                (str "dog") (str "Rex") (str "Lab") info
                eq_refl eq_refl eq_refl Hinfo) as Hp.
  eexists. split; [exact Hp|].
  exact (PromptContents.prompt_is_trimmed noon bare_record (str "") _ Hp).
Defined.

Lemma prompt_needs_three_keys_witness :
  create_enhanced_prompt noon (delete "pet_name" bare_record) (str "")
  = Raise (Exn KeyError (str "'pet_name'")).
Proof.
  destruct (PromptContents.prompt_needs_three_keys noon
              (delete "pet_name" bare_record) (str ""))
    as (_ & Hname & _).
  apply Hname; vm_compute; eauto.
Defined.

Lemma prompt_holds_record_lines_witness :
  ∃ prompt,
    create_enhanced_prompt noon bare_record (str "") = Ok prompt
    ∧ contains (str "Primary Behavior: "
                  ++ default (str "Not specified") (bare_record !! "behavior_desc"))
        prompt = true.
Proof.
  destruct (PromptBuilder.species_info_for_total (str "dog")) as [info Hinfo].
  pose proof (PromptBuilder.create_enhanced_prompt_lines noon bare_record (str "")
                (str "dog") (str "Rex") (str "Lab") info
                eq_refl eq_refl eq_refl Hinfo) as Hp.
  eexists. split; [exact Hp|].
  destruct (PromptContents.prompt_holds_record_lines noon bare_record (str "")
              (join_lines (prompt_lines noon bare_record (str "dog") info
                             (str "Rex") (str "Lab") (str "")))
              (str "dog") (str "Rex") (str "Lab"))
    as (_ & _ & _ & _ & Hdesc & _);
    [vm_compute; reflexivity..|exact Hp|exact Hdesc].
Defined.

Lemma invalid_record_gets_400_witness :
  analyze_behavior calm req_lizard fresh
  = ({| status := 400;
        body := [("success", JBool false);
                 ("error", JStr (str "Invalid input: " ++ str "Invalid pet type"))] |},
     fresh).
Proof.
  apply (HandlerEffects.invalid_record_gets_400 calm req_lizard fresh
           (str "Invalid pet type")).
  vm_compute. reflexivity.
Defined.

(** A body over the size limit is answered from the [except] block: status
    500 with the capacity message, nothing validated, nothing sent. *)
Lemma oversized_body_answer :
  analyze_behavior calm oversized_body fresh
  = ({| status := 500;
        body := [("success", JBool false);
                 ("error", JStr capacity_message);
                 ("timestamp", JStr (strftime_seconds (response_now calm)));
                 ("error_code", JStr (str "ANALYSIS_ERROR"))] |},
     fresh).
Proof.
  rewrite (HandlerEffects.analyze_behavior_unreadable calm too_large fresh).
  unfold error_response.
  assert (Hmsg : user_message (exn_msg too_large) = capacity_message)
    by (vm_compute; reflexivity).
  now rewrite Hmsg.
Qed.

Lemma handler_statuses_witness :
  analyze_behavior calm oversized_body fresh = (error_response calm too_large, fresh).
Proof.
  destruct (HandlerEffects.handler_statuses calm oversized_body fresh)
    as (_ & _ & Hunreadable & _).
  exact (Hunreadable too_large eq_refl).
Defined.

Lemma upload_saved_directly_in_upload_folder_witness :
  rsplit_1 47%N (upload_path calm clip)
  = [UPLOAD_FOLDER;
     str "video_" ++ dec (upload_time calm) ++ str "_"
       ++ secure_filename calm (filename clip)].
Proof.
  destruct (HandlerEffects.upload_saved_directly_in_upload_folder calm clip)
    as [Hsplit _].
  apply Hsplit. vm_compute. intuition discriminate.
Defined.

Lemma cors_headers_on_api_only_witness :
  headers_get (headers (add_security_headers (str "/api/stats") framed_response))
    (str "Access-Control-Allow-Origin") = Some (str "*")
  ∧ headers_get (headers (add_security_headers (str "/") framed_response))
      (str "cache-control")
    = headers_get (headers framed_response) (str "cache-control").
Proof.
  split.
  - destruct (HooksFacts.cors_headers_on_api_only (str "/api/stats") framed_response)
      as [Hapi _].
    destruct Hapi as [Horigin _]; [vm_compute; reflexivity|exact Horigin].
  - destruct (HooksFacts.cors_headers_on_api_only (str "/") framed_response)
      as [_ Hrest].
    apply Hrest.
    + intros set Hset. unfold security_names in Hset.
      repeat match type of Hset with
             | _ ∈ _ :: _ => apply elem_of_cons in Hset as [->|Hset]
             end; [vm_compute; reflexivity..|inversion Hset].
    + intros Hapi. vm_compute in Hapi. discriminate Hapi.
Defined.

Lemma stale_old_upload : stale quiet_sweep folder_names folder old_upload.
Proof.
  split.
  - exists (str "video_1741521000_old.mp4"). split.
    + apply list_elem_of_here.
    + vm_compute. reflexivity.
  - eexists. split; [vm_compute; reflexivity|]. split; [reflexivity|].
    vm_compute. reflexivity.
Defined.

Lemma sweep_removes_every_stale_file_witness :
  cleanup_old_files quiet_sweep folder !! old_upload = None.
Proof.
  apply (SweepFacts.sweep_removes_every_stale_file quiet_sweep folder
           folder_names old_upload).
  - reflexivity.
  - reflexivity.
  - intros p. reflexivity.
  - exact stale_old_upload.
Defined.

Lemma sweep_twice_witness :
  cleanup_old_files quiet_sweep (cleanup_old_files quiet_sweep folder)
  = cleanup_old_files quiet_sweep folder.
Proof.
  apply (SweepFacts.sweep_twice quiet_sweep folder). intros p. reflexivity.
Defined.

End MoreCases.
